(** * sknlp: dataset indexing/encoding and the generic training loop

    A shallow embedding of [sknlp/data/dataset.py] and [sknlp/base.py].

    - A Python [str] is a list of code points ([char := N]); slicing, [split]
      and [join] are written out with Python's conventions.
    - A Python [dict] (and [Counter]) is an association list in insertion
      order with unique keys.
    - Exceptions are values of [exn]; fallible code returns [result].
    - The training loop threads an explicit model state through a small
      state-and-exception monad; the tensor engine, the optimizer and the
      float arithmetic are interfaces (type classes), so that nothing is
      assumed about rounding. *)

From Stdlib Require Import ZArith QArith String Ascii Decimal.
From Stdlib Require DecimalN.
From stdpp Require Import base tactics option list numbers sorting.

Local Open Scope Z_scope.

(** ** Python values *)

Definition char := N.
Definition str := list char.

Definition pipe : char := 124%N.
Definition tab : char := 9%N.
Definition dash : char := 45%N.
Definition zero_digit : char := 48%N.

(** Literals for examples: the code points of an ASCII string. *)
Fixpoint s (x : string) : str :=
  match x with
  | EmptyString => []
  | String a x' => N_of_ascii a :: s x'
  end.

Inductive exn :=
  | AssertionError
  | ZeroDivisionError
  | KeyError (key : str)
  | KeyErrorInt (key : Z)
  | ValueError
  | TypeError
  | IndexError.

Inductive result (A : Type) :=
  | Ok (a : A)
  | Err (e : exn).
Arguments Ok {A} a.
Arguments Err {A} e.

#[global] Instance result_bind : MBind result := λ A B k r,
  match r with
  | Ok a => k a
  | Err e => Err e
  end.

(** [[f(x) for x in l]] with a fallible body: the first failure aborts. *)
Fixpoint rmap {A B} (f : A → result B) (l : list A) : result (list B) :=
  match l with
  | [] => Ok []
  | x :: l' => y ← f x; ys ← rmap f l'; Ok (y :: ys)
  end.

(** [a % b] on Python ints: the sign follows the divisor, as [Z.modulo];
    a zero divisor raises. *)
Definition py_mod (a b : Z) : result Z :=
  if decide (b = 0) then Err ZeroDivisionError else Ok (a mod b).

(** [range(lo, hi)] *)
Definition range (lo hi : Z) : list Z :=
  map (λ i, lo + Z.of_nat i) (seq 0 (Z.to_nat (hi - lo))).

(** [l[:n]], where [n] may be [None] or negative. *)
Definition slice_to {A} (n : option Z) (l : list A) : list A :=
  match n with
  | None => l
  | Some n =>
      if decide (0 ≤ n) then take (Z.to_nat n) l
      else take (Z.to_nat (Z.of_nat (length l) + n)) l
  end.

(** [l[idx]] with Python's negative indices. *)
Definition list_getitem {A} (l : list A) (idx : Z) : result A :=
  let n := Z.of_nat (length l) in
  let i := if decide (idx < 0) then n + idx else idx in
  if decide (0 ≤ i < n) then
    match l !! Z.to_nat i with
    | Some x => Ok x
    | None => Err IndexError
    end
  else Err IndexError.

(** [s.split(sep)] for a one-character separator: never empty. *)
Fixpoint split (sep : char) (x : str) : list str :=
  match x with
  | [] => [[]]
  | c :: x' =>
      if decide (c = sep) then [] :: split sep x'
      else match split sep x' with
           | [] => [[c]]
           | w :: ws => (c :: w) :: ws
           end
  end.

(** [sep.join(fields)] *)
Fixpoint join (sep : char) (fields : list str) : str :=
  match fields with
  | [] => []
  | [x] => x
  | x :: rest => x ++ sep :: join sep rest
  end.

(** [zip] of one or more columns: rows of the columns, as long as the shortest. *)
Fixpoint zipn {A} (first : list A) (rest : list (list A)) : list (list A) :=
  match rest with
  | [] => map (λ x, [x]) first
  | c :: cs => zip_with cons first (zipn c cs)
  end.

(** [str] comparison: lexicographic on code points. *)
Fixpoint str_leb (a b : str) : bool :=
  match a, b with
  | [], _ => true
  | _ :: _, [] => false
  | x :: a', y :: b' =>
      if (x <? y)%N then true
      else if (x =? y)%N then str_leb a' b'
      else false
  end.

Definition str_le (a b : str) : Prop := str_leb a b = true.
Definition str_lt (a b : str) : Prop := str_le a b ∧ a ≠ b.

#[global] Instance str_le_dec : RelDecision str_le.
Proof. intros a b. unfold str_le. apply _. Defined.

(** ** dict and Counter: insertion-ordered association lists *)

Section dict.
Context {K V : Type} `{EqDecision K}.

Definition dict := list (K * V).

Fixpoint dict_get (k : K) (d : dict) : option V :=
  match d with
  | [] => None
  | (k', v) :: d' => if decide (k' = k) then Some v else dict_get k d'
  end.

(** [d[k] = v]: an existing key keeps its position, a new one goes last. *)
Fixpoint dict_set (k : K) (v : V) (d : dict) : dict :=
  match d with
  | [] => [(k, v)]
  | (k', v') :: d' =>
      if decide (k' = k) then (k, v) :: d' else (k', v') :: dict_set k v d'
  end.

(** [del c[k]] of a [Counter]: no error when the key is missing. *)
Definition dict_del (k : K) (d : dict) : dict :=
  filter (λ kv, kv.1 ≠ k) d.

Definition dict_keys (d : dict) : list K := d.*1.
Definition dict_values (d : dict) : list V := d.*2.

(** [dict(pairs)]: later pairs overwrite earlier ones. *)
Definition dict_of_list (l : list (K * V)) : dict :=
  foldl (λ d kv, dict_set kv.1 kv.2 d) [] l.
End dict.
Arguments dict : clear implicits.

Definition Counter (K : Type) := dict K nat.

(** [c.update(words)] *)
Definition Counter_update {K} `{EqDecision K} (words : list K) (c : Counter K)
  : Counter K :=
foldl (λ c w, dict_set w (S (default 0%nat (dict_get w c))) c) c words.

(** ** InMemoryDataset *)

Module InMemoryDataset.
Record t := { _record : list str }.

Definition __init__ (text_list label_list : list str)
    (args : list (list str)) : t :=
  {| _record := map (join tab) (zipn text_list (label_list :: args)) |}.

Definition __getitem__ (self : t) (idx : Z) : result str :=
  list_getitem (_record self) idx.

Definition __len__ (self : t) : Z := Z.of_nat (length (_record self)).
End InMemoryDataset.

(** ** The vocabulary interface

    The datasets use [sknlp.vocab.Vocab] through two operations only: they
    construct it from a token counter and index it with a token list. *)

Class VocabOps (Vocab : Type) := {
  Vocab_new : Counter str → Vocab;
  Vocab_getitem : Vocab → list str → list Z;
}.

(** The default segmenter, Python's [list]: one token per character. *)
Definition list_segmenter (text : str) : list str := map (λ c, [c]) text.

(** [x is None] *)
Definition is_None {A} (x : option A) : bool :=
  match x with
  | None => true
  | Some _ => false
  end.

(** ** NLPDataset *)

Module NLPDataset.
Section defs.
Context {Vocab : Type} `{!VocabOps Vocab}.

Record t := {
  _dataset : list str;
  _segmenter : str → list str;
  _max_length : option Z;
  _text_lengths : list nat;
  _vocab : Vocab;
}.

Definition _split_row (row : str) : list str := split tab row.

(** The tokens that [preprocess_text] looks up:
    [self._segmenter(text[:self._max_length])]. *)
Definition encode_tokens (self : t) (text : str) : list str :=
  _segmenter self (slice_to (_max_length self) text).

Definition preprocess_text (self : t) (text : str) : list Z :=
  Vocab_getitem (_vocab self) (encode_tokens self text).

(** One row of the construction loop; the state is
    [(token_counter, _text_lengths)]. *)
Definition scan_row (build_vocab : bool) (segmenter : str → list str)
    (st : Counter str * list nat) (row : str)
    : result (Counter str * list nat) :=
  text ← list_getitem (_split_row row) 0;
  if build_vocab then
    let words := segmenter text in
    Ok (Counter_update words st.1, st.2 ++ [length words])
  else Ok st.

Fixpoint scan (build_vocab : bool) (segmenter : str → list str)
    (rows : list str) (st : Counter str * list nat)
    : result (Counter str * list nat) :=
  match rows with
  | [] => Ok st
  | row :: rows' =>
      st' ← scan_row build_vocab segmenter st row;
      scan build_vocab segmenter rows' st'
  end.

Definition __init__ (dataset : list str) (vocab : option Vocab)
    (segmenter : option (str → list str)) (max_length : option Z)
    : result t :=
  let seg := default list_segmenter segmenter in
  st ← scan (is_None vocab) seg dataset ([], []);
  Ok {| _dataset := dataset;
        _segmenter := seg;
        _max_length := max_length;
        _text_lengths := st.2;
        _vocab := default (Vocab_new st.1) vocab |}.

Definition __len__ (self : t) : Z := Z.of_nat (length (_dataset self)).

(** [preprocess_func] applied to the unpacked fields of a row: needs at
    least the text field. *)
Definition preprocess_func (self : t) (fields : list str) : result (list Z) :=
  match fields with
  | text :: _ => Ok (preprocess_text self text)
  | [] => Err TypeError
  end.

Definition __getitem__ (self : t) (idx : Z) : result (list Z) :=
  row ← list_getitem (_dataset self) idx;
  preprocess_func self (_split_row row).

(** The [text_lengths] property: the lengths recorded at construction, or,
    when none were recorded for this dataset, the lengths of the encoded
    items. *)
Definition text_lengths (self : t) : result (list nat) :=
  if decide (length (_text_lengths self) ≠ length (_dataset self)) then
    rmap (λ i, words ← __getitem__ self i; Ok (length words))
         (range 0 (__len__ self))
  else Ok (_text_lengths self).

End defs.
Arguments t Vocab : clear implicits.
End NLPDataset.

(** ** SupervisedNLPDataset *)

Module SupervisedNLPDataset.
Section defs.
Context {Vocab : Type} `{!VocabOps Vocab}.

Record t := {
  base : NLPDataset.t Vocab;
  _label2idx : dict str Z;
  _idx2label : dict Z str;
}.

Record counters := {
  token_counter : Counter str;
  label_counter : Counter str;
  lengths : list nat;
}.

(** [text, label = self._split_row(row)[:2]] *)
Definition unpack2 (row : str) : result (str * str) :=
  match slice_to (Some 2) (NLPDataset._split_row row) with
  | [text; label] => Ok (text, label)
  | _ => Err ValueError
  end.

Definition scan_row (build_vocab build_labels : bool)
    (segmenter : str → list str) (st : counters) (row : str)
    : result counters :=
  '(text, label) ← unpack2 row;
  let st1 :=
    if build_vocab then
      let words := segmenter text in
      {| token_counter := Counter_update words (token_counter st);
         label_counter := label_counter st;
         lengths := lengths st ++ [length words] |}
    else st in
  Ok (if build_labels then
        let labels := split pipe label in
        {| token_counter := token_counter st1;
           label_counter := Counter_update labels (label_counter st1);
           lengths := lengths st1 |}
      else st1).

Fixpoint scan (build_vocab build_labels : bool) (segmenter : str → list str)
    (rows : list str) (st : counters) : result counters :=
  match rows with
  | [] => Ok st
  | row :: rows' =>
      st' ← scan_row build_vocab build_labels segmenter st row;
      scan build_vocab build_labels segmenter rows' st'
  end.

(** [label_list = list(label_counter.keys()); label_list.sort();
     dict(zip(label_list, range(len(label_list))))] *)
Definition build_label2idx (label_counter : Counter str) : dict str Z :=
  let label_list := merge_sort str_le (dict_keys label_counter) in
  dict_of_list (zip label_list (range 0 (Z.of_nat (length label_list)))).

(** [{v: k for k, v in label2idx.items()}] *)
Definition invert (label2idx : dict str Z) : dict Z str :=
  dict_of_list (map (λ kv, (kv.2, kv.1)) label2idx).

Definition __init__ (dataset : list str) (vocab : option Vocab)
    (label2idx : option (dict str Z))
    (segmenter : option (str → list str)) (max_length : option Z)
    : result t :=
  let seg := default list_segmenter segmenter in
  st ← scan (is_None vocab) (is_None label2idx) seg dataset
         {| token_counter := []; label_counter := []; lengths := [] |};
  let label_counter := dict_del [] (label_counter st) in
  let l2i := default (build_label2idx label_counter) label2idx in
  Ok {| base := {| NLPDataset._dataset := dataset;
                   NLPDataset._segmenter := seg;
                   NLPDataset._max_length := max_length;
                   NLPDataset._text_lengths := lengths st;
                   NLPDataset._vocab := default (Vocab_new (token_counter st)) vocab |};
        _label2idx := l2i;
        _idx2label := invert l2i |}.

(** [self._label2idx[l]] *)
Definition label_id (self : t) (l : str) : result Z :=
  match dict_get l (_label2idx self) with
  | Some i => Ok i
  | None => Err (KeyError l)
  end.

Definition preprocess_label (self : t) (label : str) : result (list Z) :=
  rmap (label_id self) (split pipe label).

(** [preprocess_func] applied to the unpacked fields of a row, with the
    label encoding of the class of [self] passed as [preprocess_label]. *)
Definition preprocess_func {L} (preprocess_label : str → result L)
    (self : t) (fields : list str) : result (list Z * L) :=
  match fields with
  | text :: label :: _ =>
      let processed_text := NLPDataset.preprocess_text (base self) text in
      processed_label ← preprocess_label label;
      Ok (processed_text, processed_label)
  | _ => Err TypeError
  end.

Definition __getitem__ {L} (preprocess_label : str → result L)
    (self : t) (idx : Z) : result (list Z * L) :=
  row ← list_getitem (NLPDataset._dataset (base self)) idx;
  preprocess_func preprocess_label self (NLPDataset._split_row row).

Definition text_lengths {L} (preprocess_label : str → result L)
    (self : t) : result (list nat) :=
  let n := length (NLPDataset._dataset (base self)) in
  if decide (length (NLPDataset._text_lengths (base self)) ≠ n) then
    rmap (λ i, item ← __getitem__ preprocess_label self i;
               Ok (length item.1))
         (range 0 (Z.of_nat n))
  else Ok (NLPDataset._text_lengths (base self)).

End defs.
Arguments t Vocab : clear implicits.
End SupervisedNLPDataset.

(** ** MultiLabelBinarizer *)

Module MultiLabelBinarizer.

(** Modelled from the spec: scikit-learn's [MultiLabelBinarizer] is a
    dependency, not part of the sources; the binarizer is constructed with
    its class list. *)
Record t := { classes : list str }.

(** Modelled from the spec: the multi-hot row of one sample has one 0/1
    column per class, in class order, the column being 1 when the class
    occurs in the sample; labels outside the class list contribute nothing
    (the retired [IntentDataset] of [dataset.py] relies on this to encode a
    label-free row, whose component list is ['']). *)
Definition transform_row (self : t) (labels : list str) : list Z :=
  map (λ c, if decide (c ∈ labels) then 1 else 0) (classes self).

(** Modelled from the spec: [fit_transform] with a fixed class list encodes
    every sample by [transform_row]; a class list with duplicates is
    refused. *)
Definition fit_transform (self : t) (y : list (list str))
    : result (list (list Z)) :=
  if decide (NoDup (classes self)) then Ok (map (transform_row self) y)
  else Err ValueError.

End MultiLabelBinarizer.

(** ** ClassifyDataset *)

Module ClassifyDataset.
Section defs.
Context {Vocab : Type} `{!VocabOps Vocab}.

Record t := {
  super : SupervisedNLPDataset.t Vocab;
  _binarizer : MultiLabelBinarizer.t;
}.

(** [self._idx2label[i]] *)
Definition label_of_id (idx2label : dict Z str) (i : Z) : result str :=
  match dict_get i idx2label with
  | Some l => Ok l
  | None => Err (KeyErrorInt i)
  end.

Definition __init__ (dataset : list str) (vocab : option Vocab)
    (label2idx : option (dict str Z))
    (segmenter : option (str → list str)) (max_length : option Z)
    : result t :=
  sup ← SupervisedNLPDataset.__init__ dataset vocab label2idx segmenter
          max_length;
  cls ← rmap (label_of_id (SupervisedNLPDataset._idx2label sup))
          (range 0 (Z.of_nat (length (SupervisedNLPDataset._label2idx sup))));
  Ok {| super := sup;
        _binarizer := {| MultiLabelBinarizer.classes := cls |} |}.

Definition preprocess_label (self : t) (label : str) : result (list Z) :=
  rows ← MultiLabelBinarizer.fit_transform (_binarizer self)
           [split pipe label];
  list_getitem rows 0.

Definition __getitem__ (self : t) (idx : Z) : result (list Z * list Z) :=
  SupervisedNLPDataset.__getitem__ (preprocess_label self) (super self) idx.

(** [[self._idx2label[i] for i in idx_list if i in self._idx2label]]: the
    ids that are keys of [_idx2label], each replaced by its label. *)
Definition idx2labels (self : t) (idx_list : list Z) : list str :=
  omap (λ i, dict_get i (SupervisedNLPDataset._idx2label (super self)))
       idx_list.

End defs.
Arguments t Vocab : clear implicits.
End ClassifyDataset.

(** ** SequenceTagDataset *)

Module SequenceTagDataset.
Section defs.
Context {Vocab : Type} `{!VocabOps Vocab}.

(** The class adds no attribute and inherits the constructor. *)
Definition t := SupervisedNLPDataset.t Vocab.

Definition __init__ := @SupervisedNLPDataset.__init__ Vocab _.

Definition preprocess_label (self : t) (label : str) : result (list Z) :=
  rmap (SupervisedNLPDataset.label_id self)
       (slice_to (NLPDataset._max_length (SupervisedNLPDataset.base self))
                 (split pipe label)).

Definition __getitem__ (self : t) (idx : Z) : result (list Z * list Z) :=
  SupervisedNLPDataset.__getitem__ (preprocess_label self) self idx.

(** [[self._idx2label.get(i, 'O') for i in idx_list]] *)
Definition idx2labels (self : t) (idx_list : list Z) : list str :=
  map (λ i, default (s "O") (dict_get i (SupervisedNLPDataset._idx2label self)))
      idx_list.

End defs.
Arguments t Vocab : clear implicits.
End SequenceTagDataset.

(** ** Formatting of checkpoint names *)

Fixpoint uint_str (u : Decimal.uint) : str :=
  match u with
  | Nil => []
  | D0 u' => 48%N :: uint_str u'
  | D1 u' => 49%N :: uint_str u'
  | D2 u' => 50%N :: uint_str u'
  | D3 u' => 51%N :: uint_str u'
  | D4 u' => 52%N :: uint_str u'
  | D5 u' => 53%N :: uint_str u'
  | D6 u' => 54%N :: uint_str u'
  | D7 u' => 55%N :: uint_str u'
  | D8 u' => 56%N :: uint_str u'
  | D9 u' => 57%N :: uint_str u'
  end.

(** The decimal digits of a non-negative int. *)
Definition digits (n : Z) : str := uint_str (N.to_uint (Z.to_N n)).

Definition zero_pad (width : nat) (d : str) : str :=
  replicate (width - length d) zero_digit ++ d.

(** [f'{n:04}'] : sign-aware zero padding to width 4. *)
Definition format_04 (n : Z) : str :=
  if decide (n < 0) then dash :: zero_pad 3 (digits (- n))
  else zero_pad 4 (digits n).

(** [f'{checkpoint}-{epoch:04}'] *)
Definition checkpoint_path (checkpoint : str) (epoch : Z) : str :=
  checkpoint ++ dash :: format_04 epoch.

(** ** The compute engine interfaces

    Floats are an interface: the loop only adds, multiplies, divides, takes
    a square root, sums an array and compares. *)

Class FloatOps (F : Type) := {
  f_of_Z : Z → F;
  fadd : F → F → F;
  fmul : F → F → F;
  fdiv : F → F → F;
  fsqrt : F → F;
  fsum : list F → F;
  fgtb : F → F → bool;
}.

(** A parameter array with its gradient buffer, [None] when no gradient is
    attached. *)
Record param (F : Type) := {
  data : list F;
  grad : option (list F);
}.
Arguments data {F} p.
Arguments grad {F} p.

(** [self._trainable]: the registered blocks, each with its parameters. *)
Definition blocks (F : Type) := list (list (param F)).

(** What the loop asks of a batch, of autograd and of the optimizer:
    [batch_size] is [one_batch[0].shape[batch_axis]], [forward_backward]
    returns the summed loss and fills the gradients, [trainer_step] is
    [trainer.step(steps, ignore_stale_grad=True)] at the given learning
    rate. *)
Class Engine (F batch : Type) := {
  batch_size : batch → Z;
  forward_backward : batch → blocks F → F * blocks F;
  trainer_step : F → Z → blocks F → blocks F;
}.

(** ** BaseModel *)

Module BaseModel.
Section defs.
Context {F batch : Type} `{!FloatOps F} `{!Engine F batch}.

(** Calls that leave the loop, in order. [EvEpoch e r] marks the entry of
    [_one_epoch] for epoch [e], with the learning rate [r] the trainer
    holds at that moment. *)
Inductive event :=
  | EvEpoch (epoch : Z) (rate : F)
  | EvTrainLog (avg_loss : F)
  | EvSave (file_path : str)
  | EvValidLog.

Record state := {
  _trainable : blocks F;
  _trained : bool;
  learning_rate : F;
  trace : list event;
}.

(** State and exceptions: a failure keeps the state reached so far. *)
Definition Train (A : Type) : Type := state → state * result A.

#[global] Instance Train_ret : MRet Train := λ A a st, (st, Ok a).

#[global] Instance Train_bind : MBind Train := λ A B k m st,
  match m st with
  | (st', Ok a) => k a st'
  | (st', Err e) => (st', Err e)
  end.

Definition raise {A} (e : exn) : Train A := λ st, (st, Err e).

Definition lift {A} (r : result A) : Train A := λ st, (st, r).

Definition get : Train state := λ st, (st, Ok st).

Definition emit (ev : event) : Train unit := λ st,
  ({| _trainable := _trainable st; _trained := _trained st;
      learning_rate := learning_rate st; trace := trace st ++ [ev] |}, Ok ()).

Definition set_trainable (b : blocks F) : Train unit := λ st,
  ({| _trainable := b; _trained := _trained st;
      learning_rate := learning_rate st; trace := trace st |}, Ok ()).

Definition set_trained (b : bool) : Train unit := λ st,
  ({| _trainable := _trainable st; _trained := b;
      learning_rate := learning_rate st; trace := trace st |}, Ok ()).

Definition set_learning_rate (r : F) : Train unit := λ st,
  ({| _trainable := _trainable st; _trained := _trained st;
      learning_rate := r; trace := trace st |}, Ok ()).

(** A [for] loop: the first failure leaves it. *)
Fixpoint for_each {A} (l : list A) (body : A → Train unit) : Train unit :=
  match l with
  | [] => mret ()
  | x :: l' => body x;; for_each l' body
  end.

Fixpoint fold_each {A S} (l : list A) (body : S → A → Train S) (acc : S)
    : Train S :=
  match l with
  | [] => mret acc
  | x :: l' => acc' ← body acc x; fold_each l' body acc'
  end.

Definition _collect_params (tr : blocks F) : list (param F) := concat tr.

(** [norm] before the square root: [(param.grad ** 2).sum()] added up over
    the parameters that have a gradient. *)
Definition sq_norm (ps : list (param F)) : F :=
  foldl (λ norm p,
           match grad p with
           | Some g => fadd norm (fsum (map (λ x, fmul x x) g))
           | None => norm
           end) (f_of_Z 0) ps.

Definition global_norm (ps : list (param F)) : F := fsqrt (sq_norm ps).

(** [param.grad[:] *= c] when the gradient is present. *)
Definition scale_grad (c : F) (p : param F) : param F :=
  {| data := data p; grad := map (λ x, fmul x c) <$> grad p |}.

Definition _clip_gradient (clip : F) (tr : blocks F) : blocks F :=
  let norm := global_norm (_collect_params tr) in
  if fgtb norm clip then map (map (scale_grad (fdiv clip norm))) tr
  else tr.

Definition _batch_loss (loss : F) (one_batch : batch) : F :=
  fdiv loss (f_of_Z (batch_size one_batch)).

Definition _before_epoch (update_lr : bool) (lr_update_factor : F)
    : Train unit :=
  if update_lr then
    st ← get;
    let new_lr := fmul (learning_rate st) lr_update_factor in
    set_learning_rate new_lr
  else mret ().

(** One pass of the batch loop; the accumulator is
    [(total_loss, num_batch)]. *)
Definition one_batch_step (clip : F) (acc : F * Z) (one_batch : batch)
    : Train (F * Z) :=
  st ← get;
  let steps := batch_size one_batch in
  let '(loss, tr1) := forward_backward one_batch (_trainable st) in
  let tr2 := _clip_gradient clip tr1 in
  set_trainable (trainer_step (learning_rate st) steps tr2);;
  let batch_loss := _batch_loss loss one_batch in
  mret (fadd acc.1 batch_loss, acc.2 + 1).

Definition _one_epoch (data_iter : list batch) (epoch : Z) (clip : F)
    : Train F :=
  st ← get;
  emit (EvEpoch epoch (learning_rate st));;
  acc ← fold_each data_iter (one_batch_step clip) (f_of_Z 0, 0);
  if decide (acc.2 = 0) then raise ZeroDivisionError
  else mret (fdiv acc.1 (f_of_Z acc.2)).

(** [hvd is None or (hvd is not None and hvd.rank() == 0)]; [hvd] is
    [None] when horovod cannot be imported, else the rank of the process. *)
Definition is_coordinator (hvd : option Z) : bool :=
  match hvd with
  | None => true
  | Some rank => bool_decide (rank = 0)
  end.

(** The body of the epoch loop of [_fit]. [train_dataloader e] is the
    sequence of batches the loader yields on its [e]-th pass. *)
Definition fit_epoch {D} (hvd : option Z) (train_dataloader : Z → list batch)
    (valid_dataset : option D) (lr_update_factor : F) (lr_update_epochs : Z)
    (clip : F) (checkpoint : option str) (save_frequency : Z) (epoch : Z)
    : Train unit :=
  r ← lift (py_mod epoch lr_update_epochs);
  _before_epoch (bool_decide (r = 0) && bool_decide (epoch ≠ 1))
    lr_update_factor;;
  avg_loss ← _one_epoch (train_dataloader epoch) epoch clip;
  set_trained true;;
  if is_coordinator hvd then
    emit (EvTrainLog avg_loss);;
    match checkpoint with
    | Some prefix =>
        r ← lift (py_mod epoch save_frequency);
        if bool_decide (r = 0) then emit (EvSave (checkpoint_path prefix epoch))
        else mret ()
    | None => mret ()
    end;;
    match valid_dataset with
    | Some _ => emit EvValidLog
    | None => mret ()
    end
  else mret ().

Definition _fit {D} (hvd : option Z) (train_dataloader : Z → list batch)
    (valid_dataset : option D) (lr : F) (n_epochs : Z) (lr_update_factor : F)
    (lr_update_epochs : Z) (clip : F) (checkpoint : option str)
    (save_frequency : Z) : Train unit :=
  st ← get;
  if decide (length (_trainable st) = 0%nat) then raise AssertionError
  else
    set_learning_rate lr;;
    for_each (range 1 (n_epochs + 1))
      (fit_epoch hvd train_dataloader valid_dataset lr_update_factor
         lr_update_epochs clip checkpoint save_frequency).

End defs.
Arguments event F : clear implicits.
Arguments state F : clear implicits.
End BaseModel.

(** ** A vocabulary for the examples *)

(** Modelled from the spec: [sknlp/vocab.py] is missing from the sources.
    The spec asks for a deterministic token-to-id mapping built from the
    counter, with a reserved id for unseen tokens: here the vocabulary is the
    list of counted tokens in counter order, token number [i] has id [i+1]
    and id 0 is the out-of-vocabulary id. Only the examples use it. *)
Fixpoint token_id (tok : str) (toks : list str) : Z :=
  match toks with
  | [] => 0
  | t :: toks' =>
      if decide (t = tok) then 1
      else let i := token_id tok toks' in
           if decide (i = 0) then 0 else i + 1
  end.

(** Modelled from the spec: the vocabulary of the examples, see
    [token_id]. *)
#[global] Instance list_vocab : VocabOps (list str) := {|
  Vocab_new c := dict_keys c;
  Vocab_getitem v toks := map (λ tok, token_id tok v) toks;
|}.

(** The rows of [InMemoryDataset(text_list, label_list)]. *)
Definition rows_of (text_list label_list : list str) : list str :=
  InMemoryDataset._record (InMemoryDataset.__init__ text_list label_list []).

(** ** Exact arithmetic and a trivial engine for the examples

    Rationals kept in lowest terms stand in for floats; the square root is
    the integer square root of numerator and denominator, exact on squares.
    The engine's batches are their sizes, the loss of a batch is its size and
    neither autograd nor the optimizer changes a parameter. *)

Definition Qsqrt (q : Q) : Q :=
  Qmake (Z.sqrt (Qnum q)) (Pos.sqrt (Qden q)).

#[global] Instance Q_float : FloatOps Q := {|
  f_of_Z := inject_Z;
  fadd a b := Qred (Qplus a b);
  fmul a b := Qred (Qmult a b);
  fdiv a b := Qred (Qdiv a b);
  fsqrt a := Qred (Qsqrt a);
  fsum l := Qred (foldr Qplus (inject_Z 0) l);
  fgtb a b := negb (Qle_bool a b);
|}.

#[global] Instance size_engine : Engine Q Z := {|
  batch_size b := b;
  forward_backward b tr := (inject_Z b, tr);
  trainer_step _ _ tr := tr;
|}.

(** A model with one registered block of one parameter, not trained, and
    an empty trace. *)
Definition fresh_model : BaseModel.state Q := {|
  BaseModel._trainable := [[{| data := [inject_Z 1]; grad := None |}]];
  BaseModel._trained := false;
  BaseModel.learning_rate := inject_Z 0;
  BaseModel.trace := [];
|}.

(** A loader that yields one batch of one sample on every pass. *)
Definition one_batch_loader : Z → list Z := λ _, [1].

(** ** Vocabulary used to state the properties *)

(** The text and label fields of a row: the first two tab-separated
    fields. *)
Definition row_text (row : str) : str :=
  default [] (split tab row !! 0%nat).

Definition row_label (row : str) : str :=
  default [] (split tab row !! 1%nat).

(** The pipe-separated components of the label fields of a corpus. *)
Definition corpus_labels (rows : list str) : list str :=
  rows ≫= (λ row, split pipe (row_label row)).

(** The tokens of the text fields of a corpus, each text segmented after
    [cut] was applied to it. *)
Definition corpus_tokens (segmenter : str → list str) (cut : str → str)
    (rows : list str) : list str :=
  rows ≫= (λ row, segmenter (cut (row_text row))).

(** The epochs entered, with the learning rate of each, and the paths
    saved, as recorded in a trace. *)
Definition epoch_events {F} (tr : list (BaseModel.event F)) : list (Z * F) :=
  omap (λ ev, match ev with
              | BaseModel.EvEpoch e r => Some (e, r)
              | _ => None
              end) tr.

Definition save_events {F} (tr : list (BaseModel.event F)) : list str :=
  omap (λ ev, match ev with
              | BaseModel.EvSave path => Some path
              | _ => None
              end) tr.

(** [epoch % lr_update_epochs == 0 and epoch != 1], for a non-zero
    [lr_update_epochs]. *)
Definition updates_lr (lr_update_epochs epoch : Z) : bool :=
  bool_decide (epoch mod lr_update_epochs = 0) && bool_decide (epoch ≠ 1).

(** The number of learning-rate updates made up to and including the one
    before epoch [e]: the epochs [k] in [2..e] with
    [k % lr_update_epochs == 0]. *)
Definition lr_updates (lr_update_epochs e : Z) : nat :=
  length (filter (λ k, k mod lr_update_epochs = 0) (range 2 (e + 1))).

(** [lr] multiplied [n] times by [factor]. *)
Definition decayed {F} `{!FloatOps F} (lr factor : F) (n : nat) : F :=
  Nat.iter n (λ r, fmul r factor) lr.

(** The schedule in the words of the spec:
    [initial_rate * lr_update_factor^floor((e-1)/lr_update_epochs)]. *)
Definition spec_rate {F} `{!FloatOps F} (lr factor : F)
    (lr_update_epochs e : Z) : F :=
  decayed lr factor (Z.to_nat ((e - 1) / lr_update_epochs)).

Definition succeeded {A} (r : result A) : bool :=
  match r with
  | Ok _ => true
  | Err _ => false
  end.

(** The rates with which a list of epochs is entered, one after the other,
    starting from the rate [r]. *)
Fixpoint rates_from {F} `{!FloatOps F} (factor : F) (lr_update_epochs : Z)
    (r : F) (epochs : list Z) : list (Z * F) :=
  match epochs with
  | [] => []
  | e :: epochs' =>
      let r' := if updates_lr lr_update_epochs e then fmul r factor else r in
      (e, r') :: rates_from factor lr_update_epochs r' epochs'
  end.

(** The calls of a trace without their float arguments. *)
Inductive call :=
  | CallEpoch (epoch : Z)
  | CallTrainLog
  | CallSave (file_path : str)
  | CallValidLog.

Definition calls {F} (tr : list (BaseModel.event F)) : list call :=
  map (λ ev, match ev with
             | BaseModel.EvEpoch e _ => CallEpoch e
             | BaseModel.EvTrainLog _ => CallTrainLog
             | BaseModel.EvSave path => CallSave path
             | BaseModel.EvValidLog => CallValidLog
             end) tr.

(** The calls of one completed epoch, in order: the epoch itself, then, on
    the coordinating process, the training log, the checkpoint when one is
    due, and the validation log when a validation set is given. *)
Definition epoch_calls {D} (hvd : option Z) (valid_dataset : option D)
    (checkpoint : option str) (save_frequency : Z) (e : Z) : list call :=
  CallEpoch e ::
  if BaseModel.is_coordinator hvd then
    CallTrainLog ::
    match checkpoint with
    | Some prefix =>
        if bool_decide (e mod save_frequency = 0)
        then [CallSave (checkpoint_path prefix e)] else []
    | None => []
    end ++
    match valid_dataset with
    | Some _ => [CallValidLog]
    | None => []
    end
  else [].

(** Reading a decimal numeral back: the digits as a [Decimal.uint], [None]
    when a character is not a digit. *)
Fixpoint str_uint (x : str) : option Decimal.uint :=
  match x with
  | [] => Some Nil
  | c :: x' =>
      u ← str_uint x';
      if decide (c = 48%N) then Some (D0 u)
      else if decide (c = 49%N) then Some (D1 u)
      else if decide (c = 50%N) then Some (D2 u)
      else if decide (c = 51%N) then Some (D3 u)
      else if decide (c = 52%N) then Some (D4 u)
      else if decide (c = 53%N) then Some (D5 u)
      else if decide (c = 54%N) then Some (D6 u)
      else if decide (c = 55%N) then Some (D7 u)
      else if decide (c = 56%N) then Some (D8 u)
      else if decide (c = 57%N) then Some (D9 u)
      else None
  end.

Definition parse_decimal (x : str) : option Z :=
  u ← str_uint x; Some (Z.of_N (N.of_uint u)).

(** The number of occurrences of [k] in [l]. *)
Definition occurrences {K} `{EqDecision K} (k : K) (l : list K) : nat :=
  length (filter (λ x, x = k) l).

(** Two parameters of the same shape: same data, gradient present in both
    or in neither, and of the same length. *)
Definition same_shape {F} (p p' : param F) : Prop :=
  data p' = data p ∧
  match grad p, grad p' with
  | Some g, Some g' => length g' = length g
  | None, None => True
  | _, _ => False
  end.

(** The learning rate after the epochs of a list have been entered in
    turn. *)
Definition rate_after {F} `{!FloatOps F} (factor : F) (lr_update_epochs : Z)
    (r : F) (epochs : list Z) : F :=
  foldl (λ r e, if updates_lr lr_update_epochs e then fmul r factor else r)
        r epochs.

(** The parameters after the batches of one epoch: for each batch in turn,
    gradients from [forward_backward], clipped, then one optimizer step at
    the rate [r]. *)
Definition params_after {F batch} `{!FloatOps F} `{!Engine F batch}
    (clip r : F) (tr : blocks F) (batches : list batch) : blocks F :=
  foldl (λ tr b,
           trainer_step r (batch_size b)
             (BaseModel._clip_gradient clip (forward_backward b tr).2))
        tr batches.

(** * Properties *)

(** ** Python values *)

Lemma bind_Ok {A B} (r : result A) (k : A → result B) (b : B) :
  r ≫= k = Ok b ↔ ∃ a, r = Ok a ∧ k a = Ok b.
Proof.
  destruct r as [a|e]; simpl.
  - split; [eauto | intros (a' & [= <-] & ?); done].
  - split; [done | intros (a' & [=] & ?)].
Qed.

Lemma list_getitem_nat {A} (l : list A) (i : nat) (x : A) :
  l !! i = Some x → list_getitem l (Z.of_nat i) = Ok x.
Proof.
  intros Hi. pose proof (lookup_lt_Some _ _ _ Hi) as Hlt.
  unfold list_getitem. cbv zeta.
  destruct (decide (Z.of_nat i < 0)) as [|_]; [lia|].
  destruct (decide _) as [_|]; [|lia]. by rewrite Nat2Z.id, Hi.
Qed.

Lemma foldr_min_swap (a b : nat) (l : list nat) :
  Nat.min a (foldr Nat.min b l) = Nat.min b (foldr Nat.min a l).
Proof. induction l as [|x l IH]; simpl; lia. Qed.

Lemma length_zipn {A} (first : list A) (rest : list (list A)) :
  length (zipn first rest) = foldr Nat.min (length first) (length <$> rest).
Proof.
  revert first. induction rest as [|c cs IH]; intros first; simpl.
  - by rewrite length_map.
  - rewrite length_zip_with, IH. apply foldr_min_swap.
Qed.

Lemma lookup_zipn {A} (first : list A) (rest : list (list A)) (i : nat) :
  zipn first rest !! i = mapM (λ c : list A, c !! i) (first :: rest).
Proof.
  revert first. induction rest as [|c cs IH]; intros first.
  - simpl. rewrite list_lookup_fmap. by destruct (first !! i).
  - change (zipn first (c :: cs)) with (zip_with cons first (zipn c cs)).
    rewrite lookup_zip_with, IH. simpl.
    destruct (first !! i); simpl; [|done].
    by destruct (c !! i); simpl; [destruct (mapM _ cs)|].
Qed.

Lemma list_getitem_ge {A} (l : list A) (i : Z) :
  Z.of_nat (length l) ≤ i → list_getitem l i = Err IndexError.
Proof.
  intros Hi. unfold list_getitem. cbv zeta.
  destruct (decide (i < 0)); [lia|]. destruct (decide _); [lia|done].
Qed.

(** ** InMemoryDataset *)

(** C10: [InMemoryDataset(text_list, label_list, *args)] is as long as the
    shortest of its input sequences (longer inputs are cut, nothing is
    rejected), item [i] below that length is the [i]-th fields of the inputs
    joined by tabs, and an index from the length on is out of range. *)
Theorem InMemoryDataset_zip_min (text_list label_list : list str)
    (args : list (list str)) :
  let ds := InMemoryDataset.__init__ text_list label_list args in
  let n := foldr Nat.min (length text_list) (length <$> label_list :: args) in
  InMemoryDataset.__len__ ds = Z.of_nat n ∧
  (∀ i : nat, (i < n)%nat →
     ∃ row, mapM (λ c : list str, c !! i) (text_list :: label_list :: args)
              = Some row ∧
            InMemoryDataset.__getitem__ ds (Z.of_nat i) = Ok (join tab row)) ∧
  (∀ i : Z, Z.of_nat n ≤ i →
     InMemoryDataset.__getitem__ ds i = Err IndexError).
Proof.
  intros ds n.
  assert (Hlen : length (InMemoryDataset._record ds) = n).
  { unfold ds, InMemoryDataset.__init__, InMemoryDataset._record.
    rewrite length_map. apply length_zipn. }
  split_and!.
  - unfold InMemoryDataset.__len__. by rewrite Hlen.
  - intros i Hi.
    destruct (lookup_lt_is_Some_2 (InMemoryDataset._record ds) i) as [x Hx];
      [lia|].
    pose proof Hx as Hx'.
    unfold ds, InMemoryDataset.__init__, InMemoryDataset._record in Hx'.
    rewrite list_lookup_fmap, lookup_zipn in Hx'.
    destruct (mapM _ _) as [row|] eqn:Hrow; [|done].
    exists row. split; [done|]. injection Hx' as <-.
    by apply list_getitem_nat.
  - intros i Hi. apply list_getitem_ge. by rewrite Hlen.
Qed.

Lemma InMemoryDataset_zip_min_witness :
  InMemoryDataset.__getitem__
    (InMemoryDataset.__init__ [s "ab"; s "c"] [s "1"] [[s "x"; s "y"; s "z"]]) 0
  = Ok (s "ab" ++ tab :: s "1" ++ tab :: s "x").
Proof.
  destruct (InMemoryDataset_zip_min [s "ab"; s "c"] [s "1"]
              [[s "x"; s "y"; s "z"]]) as (_ & H & _).
  destruct (H 0%nat) as (row & Hrow & Hget); [simpl; lia|].
  injection Hrow as <-. exact Hget.
Defined.

(** ** The order on [str] *)

Lemma str_leb_refl (a : str) : str_leb a a = true.
Proof.
  induction a as [|x a IH]; simpl; [done|].
  by rewrite N.ltb_irrefl, N.eqb_refl.
Qed.

Lemma str_leb_total (a b : str) : str_leb a b = true ∨ str_leb b a = true.
Proof.
  revert b. induction a as [|x a IH]; intros [|y b]; simpl; auto.
  destruct (N.ltb_spec x y), (N.ltb_spec y x); auto; try lia.
  assert (x = y) as -> by lia. rewrite N.eqb_refl. apply IH.
Qed.

Lemma str_leb_antisym (a b : str) :
  str_leb a b = true → str_leb b a = true → a = b.
Proof.
  revert b. induction a as [|x a IH]; intros [|y b]; simpl; try done.
  destruct (N.ltb_spec x y), (N.ltb_spec y x); try lia.
  - destruct (N.eqb_spec y x); [lia|done].
  - destruct (N.eqb_spec x y); [lia|done].
  - assert (x = y) as -> by lia. rewrite N.eqb_refl.
    intros ??. f_equal. by apply IH.
Qed.

Lemma str_leb_trans (a b c : str) :
  str_leb a b = true → str_leb b c = true → str_leb a c = true.
Proof.
  revert b c. induction a as [|x a IH]; intros [|y b] [|z c]; simpl; try done.
  destruct (N.ltb_spec x y), (N.ltb_spec y z), (N.ltb_spec x z);
    try done; try lia;
    repeat match goal with
           | |- context [N.eqb ?u ?v] => destruct (N.eqb_spec u v)
           end; try done; try lia.
  apply IH.
Qed.

#[global] Instance str_le_total : Total str_le.
Proof. intros a b. apply str_leb_total. Qed.

#[global] Instance str_le_trans : Transitive str_le.
Proof. intros a b c. apply str_leb_trans. Qed.

#[global] Instance str_le_antisym : AntiSymm (=) str_le.
Proof. intros a b. apply str_leb_antisym. Qed.

Lemma StronglySorted_le_lt (l : list str) :
  NoDup l → StronglySorted str_le l → StronglySorted str_lt l.
Proof.
  intros Hnd Hs. induction Hs as [|x l Hs IH Hx]; [constructor|].
  apply NoDup_cons in Hnd as [Hx' Hnd]. constructor; [by apply IH|].
  rewrite Forall_forall in Hx |- *. intros y Hy. split; [by apply Hx|].
  intros ->. by apply Hx'.
Qed.

(** ** dict *)

Section dict_facts.
Context {K V : Type} `{EqDecision K}.
Implicit Types (d : dict K V) (k : K) (v : V).

Lemma dict_get_None k d : dict_get k d = None ↔ k ∉ dict_keys d.
Proof.
  induction d as [|[k' v'] d IH]; simpl.
  - split; [intros _; apply not_elem_of_nil|done].
  - rewrite not_elem_of_cons. destruct (decide (k' = k)) as [->|Hne].
    + split; [done|]. by intros [[] _].
    + rewrite IH. intuition congruence.
Qed.

Lemma dict_get_Some_elem k v d : dict_get k d = Some v → (k, v) ∈ d.
Proof.
  induction d as [|[k' v'] d IH]; simpl; [done|].
  destruct (decide (k' = k)) as [->|Hne].
  - intros [= ->]. left.
  - intros ?. right. by apply IH.
Qed.

Lemma dict_get_elem k v d :
  NoDup (dict_keys d) → (k, v) ∈ d → dict_get k d = Some v.
Proof.
  induction d as [|[k' v'] d IH]; simpl.
  - intros _ Hin. by apply elem_of_nil in Hin.
  - intros Hnd Hin. apply NoDup_cons in Hnd as [Hk' Hnd].
    apply elem_of_cons in Hin as [[= <- <-]|Hin].
    + by rewrite decide_True.
    + destruct (decide (k' = k)) as [->|Hne]; [|by apply IH].
      destruct Hk'. apply list_elem_of_fmap. by exists (k, v).
Qed.

Lemma dict_keys_set k v d :
  dict_keys (dict_set k v d) =
    if decide (k ∈ dict_keys d) then dict_keys d else dict_keys d ++ [k].
Proof.
  induction d as [|[k' v'] d IH].
  - simpl. by destruct (decide (k ∈ [])) as [?%elem_of_nil|].
  - change (dict_keys ((k', v') :: d)) with (k' :: dict_keys d).
    simpl. destruct (decide (k' = k)) as [->|Hne].
    + rewrite decide_True; [done|left].
    + change (dict_keys ((k', v') :: dict_set k v d))
        with (k' :: dict_keys (dict_set k v d)).
      rewrite IH. destruct (decide (k ∈ dict_keys d)) as [Hin|Hnin].
      * rewrite decide_True; [done|by right].
      * rewrite decide_False; [done|]. rewrite not_elem_of_cons. intuition congruence.
Qed.

Lemma elem_of_dict_keys_set k k' v d :
  k' ∈ dict_keys (dict_set k v d) ↔ k' = k ∨ k' ∈ dict_keys d.
Proof.
  rewrite dict_keys_set. destruct (decide _).
  - intuition congruence.
  - rewrite elem_of_app, list_elem_of_singleton. tauto.
Qed.

Lemma NoDup_dict_keys_set k v d :
  NoDup (dict_keys d) → NoDup (dict_keys (dict_set k v d)).
Proof.
  intros Hnd. rewrite dict_keys_set. destruct (decide _); [done|].
  apply NoDup_app. split_and!; [done| |apply NoDup_singleton].
  intros x Hx ->%list_elem_of_singleton. done.
Qed.

Lemma dict_set_fresh k v d :
  k ∉ dict_keys d → dict_set k v d = d ++ [(k, v)].
Proof.
  induction d as [|[k' v'] d IH]; simpl; [done|].
  rewrite not_elem_of_cons. intros [Hne Hnin].
  rewrite decide_False by done. by rewrite IH.
Qed.

Lemma dict_of_list_NoDup (l : list (K * V)) :
  NoDup l.*1 → dict_of_list l = l.
Proof.
  unfold dict_of_list.
  enough (∀ acc : dict K V, NoDup (acc ++ l).*1 →
            foldl (λ d kv, dict_set kv.1 kv.2 d) acc l = acc ++ l) as Hgen.
  { intros Hnd. by apply (Hgen []). }
  induction l as [|[k v] l IH]; intros acc Hnd; simpl.
  - by rewrite app_nil_r.
  - rewrite (assoc_L app acc [(k, v)] l : acc ++ (k, v) :: l = _) in Hnd |- *.
    rewrite dict_set_fresh.
    + by apply IH.
    + rewrite !fmap_app in Hnd. apply NoDup_app in Hnd as [Hnd _].
      apply NoDup_app in Hnd as (_ & Hdis & _).
      intros Hin. apply (Hdis k Hin). simpl. left.
Qed.

Lemma dict_keys_del k d :
  dict_keys (dict_del k d) = filter (λ k', k' ≠ k) (dict_keys d).
Proof.
  unfold dict_del, dict_keys.
  induction d as [|[k' v'] d IH]; [done|].
  change (((k', v') :: d).*1) with (k' :: d.*1).
  destruct (decide (k' ≠ k)).
  - rewrite (filter_cons_True _ (k', v')) by done.
    rewrite (filter_cons_True _ k') by done.
    change ((?x :: ?l).*1) with (x.1 :: l.*1). simpl. f_equal. exact IH.
  - rewrite (filter_cons_False _ (k', v')) by done.
    by rewrite (filter_cons_False _ k').
Qed.

End dict_facts.

Lemma elem_of_Counter_update {K} `{EqDecision K} (ws : list K)
    (c : Counter K) (k : K) :
  k ∈ dict_keys (Counter_update ws c) ↔ k ∈ dict_keys c ∨ k ∈ ws.
Proof.
  unfold Counter_update. revert c.
  induction ws as [|w ws IH]; intros c; simpl.
  - rewrite elem_of_nil. tauto.
  - rewrite IH, elem_of_dict_keys_set, elem_of_cons. tauto.
Qed.

Lemma NoDup_Counter_update {K} `{EqDecision K} (ws : list K) (c : Counter K) :
  NoDup (dict_keys c) → NoDup (dict_keys (Counter_update ws c)).
Proof.
  unfold Counter_update. revert c.
  induction ws as [|w ws IH]; intros c Hnd; simpl; [done|].
  by apply IH, NoDup_dict_keys_set.
Qed.

(** ** Splitting rows and scanning the corpus *)

Lemma split_nonempty (sep : char) (x : str) : split sep x ≠ [].
Proof.
  destruct x as [|c x]; simpl; [done|].
  destruct (decide (c = sep)); [done|]. by destruct (split sep x).
Qed.


Lemma unpack2_Ok (row text label : str) :
  SupervisedNLPDataset.unpack2 row = Ok (text, label) ↔
  ∃ rest, split tab row = text :: label :: rest.
Proof.
  unfold SupervisedNLPDataset.unpack2, NLPDataset._split_row, slice_to.
  rewrite decide_True by lia.
  destruct (split tab row) as [|f1 [|f2 rest]]; simpl.
  - split; [done|]. by intros [? ?].
  - split; [done|]. by intros [? ?].
  - split.
    + intros [= -> ->]. by exists rest.
    + by intros (rest' & [= -> -> _]).
Qed.

Lemma unpack2_fields (row text label : str) :
  SupervisedNLPDataset.unpack2 row = Ok (text, label) →
  text = row_text row ∧ label = row_label row.
Proof.
  intros (rest & Hs)%unpack2_Ok. unfold row_text, row_label. by rewrite Hs.
Qed.

Lemma unpack2_total (row : str) :
  (2 ≤ length (split tab row))%nat →
  SupervisedNLPDataset.unpack2 row = Ok (row_text row, row_label row).
Proof.
  intros Hlen. apply unpack2_Ok. unfold row_text, row_label.
  destruct (split tab row) as [|f1 [|f2 rest]]; simpl in *; try lia.
  by exists rest.
Qed.

Section scan_facts.
Context (build_vocab build_labels : bool) (segmenter : str → list str).

Import SupervisedNLPDataset.

Lemma scan_row_Ok (st st' : counters) (row : str) :
  scan_row build_vocab build_labels segmenter st row = Ok st' →
  (2 ≤ length (split tab row))%nat ∧
  token_counter st' =
    (if build_vocab
     then Counter_update (segmenter (row_text row)) (token_counter st)
     else token_counter st) ∧
  label_counter st' =
    (if build_labels
     then Counter_update (split pipe (row_label row)) (label_counter st)
     else label_counter st) ∧
  lengths st' =
    (if build_vocab then lengths st ++ [length (segmenter (row_text row))]
     else lengths st).
Proof.
  unfold scan_row. destruct (unpack2 row) as [[text label]|e] eqn:Hu; [|done].
  destruct (unpack2_fields _ _ _ Hu) as [-> ->].
  apply unpack2_Ok in Hu as [rest Hrest].
  simpl. intros [= <-]. split; [rewrite Hrest; simpl; lia|].
  by destruct build_vocab, build_labels.
Qed.

Lemma scan_Ok (rows : list str) (st st' : counters) :
  scan build_vocab build_labels segmenter rows st = Ok st' →
  Forall (λ row, (2 ≤ length (split tab row))%nat) rows ∧
  token_counter st' =
    (if build_vocab
     then Counter_update (corpus_tokens segmenter id rows) (token_counter st)
     else token_counter st) ∧
  label_counter st' =
    (if build_labels
     then Counter_update (corpus_labels rows) (label_counter st)
     else label_counter st) ∧
  lengths st' =
    (if build_vocab
     then lengths st ++ ((λ row, length (segmenter (row_text row))) <$> rows)
     else lengths st).
Proof.
  revert st. induction rows as [|row rows IH]; intros st; simpl.
  - intros [= <-]. split; [constructor|].
    unfold corpus_tokens, corpus_labels. simpl.
    rewrite app_nil_r. by destruct build_vocab, build_labels.
  - destruct (scan_row _ _ _ st row) as [st1|e] eqn:Hrow; [|done].
    simpl. intros Hrest. apply IH in Hrest as (Hall & Htc & Hlc & Hlen).
    apply scan_row_Ok in Hrow as (Hrow & Htc1 & Hlc1 & Hlen1).
    split; [by constructor|].
    rewrite Htc, Hlc, Hlen, Htc1, Hlc1, Hlen1.
    unfold corpus_tokens, corpus_labels, Counter_update. simpl.
    destruct build_vocab, build_labels; simpl;
      by rewrite ?foldl_app, <-?app_assoc.
Qed.

Lemma scan_total (rows : list str) (st : counters) :
  Forall (λ row, (2 ≤ length (split tab row))%nat) rows →
  ∃ st', scan build_vocab build_labels segmenter rows st = Ok st'.
Proof.
  intros Hall. revert st. induction Hall as [|row rows Hrow _ IH]; intros st.
  - by exists st.
  - simpl. unfold scan_row. rewrite (unpack2_total _ Hrow). simpl. apply IH.
Qed.

End scan_facts.

(** ** The label index *)

Lemma range_0 (n : nat) : range 0 (Z.of_nat n) = Z.of_nat <$> seq 0 n.
Proof.
  unfold range. rewrite Z.sub_0_r, Nat2Z.id.
  apply map_ext. intros i. lia.
Qed.

Lemma NoDup_ids (n : nat) : NoDup (Z.of_nat <$> seq 0 n).
Proof. apply NoDup_fmap; [apply _|apply NoDup_seq]. Qed.

Lemma zip_swap {A B} (l : list A) (k : list B) :
  (λ kv, (kv.2, kv.1)) <$> zip l k = zip k l.
Proof.
  revert k. induction l as [|x l IH]; intros [|y k]; simpl; try done.
  by rewrite IH.
Qed.

Lemma elem_of_zip_swap {A B} (l : list A) (k : list B) (x : A) (y : B) :
  (x, y) ∈ zip l k ↔ (y, x) ∈ zip k l.
Proof.
  rewrite <-(zip_swap l k), list_elem_of_fmap. split.
  - intros Hin. by exists (x, y).
  - by intros ([x' y'] & [= -> ->] & Hin).
Qed.

(** The label list of a scanned counter: its keys but [''], sorted. *)
Lemma label_list_spec (lc : Counter str) :
  NoDup (dict_keys lc) →
  let labels := merge_sort str_le (dict_keys (dict_del [] lc)) in
  StronglySorted str_lt labels ∧
  (∀ l, l ∈ labels ↔ l ≠ [] ∧ l ∈ dict_keys lc) ∧
  NoDup labels ∧
  SupervisedNLPDataset.build_label2idx (dict_del [] lc) =
    zip labels (Z.of_nat <$> seq 0 (length labels)) ∧
  SupervisedNLPDataset.invert
      (SupervisedNLPDataset.build_label2idx (dict_del [] lc)) =
    zip (Z.of_nat <$> seq 0 (length labels)) labels.
Proof.
  intros Hnd labels.
  assert (Hnd' : NoDup labels).
  { unfold labels. rewrite merge_sort_Permutation, dict_keys_del.
    by apply NoDup_filter. }
  assert (Hlen : length (Z.of_nat <$> seq 0 (length labels)) = length labels).
  { by rewrite length_fmap, length_seq. }
  assert (Hl2i : SupervisedNLPDataset.build_label2idx (dict_del [] lc) =
                 zip labels (Z.of_nat <$> seq 0 (length labels))).
  { unfold SupervisedNLPDataset.build_label2idx. fold labels.
    rewrite range_0. apply dict_of_list_NoDup.
    rewrite fst_zip; [done|]. by rewrite Hlen. }
  split_and!.
  - apply StronglySorted_le_lt; [done|].
    apply StronglySorted_merge_sort; apply _.
  - intros l. unfold labels.
    by rewrite merge_sort_Permutation, dict_keys_del, list_elem_of_filter.
  - done.
  - done.
  - rewrite Hl2i. unfold SupervisedNLPDataset.invert. rewrite zip_swap.
    apply dict_of_list_NoDup. rewrite fst_zip; [apply NoDup_ids|].
    by rewrite Hlen.
Qed.

Section supervised_facts.
Context {Vocab : Type} `{!VocabOps Vocab}.

Import SupervisedNLPDataset.

Lemma init_Ok (dataset : list str) (vocab : option Vocab)
    (label2idx : option (dict str Z)) (segmenter : option (str → list str))
    (max_length : option Z) (ds : t Vocab) :
  __init__ dataset vocab label2idx segmenter max_length = Ok ds →
  let seg := default list_segmenter segmenter in
  ∃ st, scan (is_None vocab) (is_None label2idx) seg dataset
          {| token_counter := []; label_counter := []; lengths := [] |}
          = Ok st ∧
        NLPDataset._dataset (base ds) = dataset ∧
        NLPDataset._segmenter (base ds) = seg ∧
        NLPDataset._max_length (base ds) = max_length ∧
        NLPDataset._text_lengths (base ds) = lengths st ∧
        NLPDataset._vocab (base ds) =
          default (Vocab_new (token_counter st)) vocab ∧
        _label2idx ds =
          default (build_label2idx (dict_del [] (label_counter st)))
                  label2idx ∧
        _idx2label ds = invert (_label2idx ds).
Proof.
  unfold __init__. intros (st & Hscan & [= <-])%bind_Ok.
  exists st. by split_and!.
Qed.

(** The construction returns as soon as every row has a text and a label
    field. *)
Lemma init_total (dataset : list str) (vocab : option Vocab)
    (label2idx : option (dict str Z)) (segmenter : option (str → list str))
    (max_length : option Z) :
  Forall (λ row, (2 ≤ length (split tab row))%nat) dataset →
  ∃ ds, __init__ dataset vocab label2idx segmenter max_length = Ok ds.
Proof.
  intros Hrows. unfold __init__.
  edestruct (scan_total (is_None vocab) (is_None label2idx)
               (default list_segmenter segmenter) dataset) as [st ->];
    [done|]. by eexists.
Qed.

Lemma built_label_index (dataset : list str) (vocab : option Vocab)
    (segmenter : option (str → list str)) (max_length : option Z)
    (ds : t Vocab) :
  __init__ dataset vocab None segmenter max_length = Ok ds →
  ∃ labels : list str,
    StronglySorted str_lt labels ∧
    NoDup labels ∧
    (∀ l, l ∈ labels ↔ l ≠ [] ∧ l ∈ corpus_labels dataset) ∧
    _label2idx ds = zip labels (Z.of_nat <$> seq 0 (length labels)) ∧
    _idx2label ds = zip (Z.of_nat <$> seq 0 (length labels)) labels.
Proof.
  intros (st & Hscan & _ & _ & _ & _ & _ & Hl2i & Hi2l)%init_Ok.
  apply scan_Ok in Hscan as (_ & _ & Hlc & _). simpl in Hlc, Hl2i.
  assert (Hnd : NoDup (dict_keys (label_counter st))).
  { rewrite Hlc. apply NoDup_Counter_update. constructor. }
  destruct (label_list_spec _ Hnd) as (Hsorted & Hmem & Hnd' & Hzip & Hinv).
  exists (merge_sort str_le (dict_keys (dict_del [] (label_counter st)))).
  split_and!; [done|done| | |].
  - intros l. rewrite Hmem, Hlc, elem_of_Counter_update.
    unfold dict_keys. simpl. rewrite elem_of_nil. tauto.
  - by rewrite Hl2i.
  - by rewrite Hi2l, Hl2i.
Qed.

End supervised_facts.

(** C5: scanning a corpus without an injected label index gives the [K]
    distinct non-empty pipe-delimited labels of the corpus, in strictly
    increasing lexical order, the ids [0..K-1] in that order; [''] is not a
    key; [_idx2label] is the inverse mapping. *)
Theorem label2idx_sorted_contiguous {Vocab : Type} `{!VocabOps Vocab}
    (dataset : list str) (vocab : option Vocab)
    (segmenter : option (str → list str)) (max_length : option Z)
    (ds : SupervisedNLPDataset.t Vocab) :
  SupervisedNLPDataset.__init__ dataset vocab None segmenter max_length
    = Ok ds →
  ∃ labels : list str,
    StronglySorted str_lt labels ∧
    (∀ l, l ∈ labels ↔ l ≠ [] ∧ l ∈ corpus_labels dataset) ∧
    SupervisedNLPDataset._label2idx ds =
      zip labels (Z.of_nat <$> seq 0 (length labels)) ∧
    dict_get [] (SupervisedNLPDataset._label2idx ds) = None ∧
    (∀ l i, dict_get i (SupervisedNLPDataset._idx2label ds) = Some l ↔
            dict_get l (SupervisedNLPDataset._label2idx ds) = Some i).
Proof.
  intros (labels & Hsorted & Hnd & Hmem & Hl2i & Hi2l)%built_label_index.
  set (ids := Z.of_nat <$> seq 0 (length labels)) in *.
  assert (Hlen : length ids = length labels).
  { unfold ids. by rewrite length_fmap, length_seq. }
  assert (Hk1 : NoDup (dict_keys (zip labels ids))).
  { unfold dict_keys. by rewrite fst_zip by (by rewrite Hlen). }
  assert (Hk2 : NoDup (dict_keys (zip ids labels))).
  { unfold dict_keys. rewrite fst_zip by (by rewrite Hlen). apply NoDup_ids. }
  rewrite Hi2l, Hl2i.
  exists labels. split_and!; [done|done|done| |].
  - apply dict_get_None. unfold dict_keys.
    rewrite fst_zip by (by rewrite Hlen). rewrite Hmem. tauto.
  - intros l i.
    split; intros Hget%dict_get_Some_elem; apply dict_get_elem; try done;
      by apply elem_of_zip_swap.
Qed.

Lemma label2idx_sorted_contiguous_witness :
  ∃ ds, SupervisedNLPDataset.__init__
          (rows_of [s "abc"; s "abd"; s "dxy"] [s "1|2"; s "1|2|3"; s "3|1"])
          (None : option (list str)) None None (Some 100) = Ok ds ∧
        SupervisedNLPDataset._label2idx ds = [(s "1", 0); (s "2", 1); (s "3", 2)].
Proof.
  eexists. split; [vm_compute; reflexivity|].
  edestruct (label2idx_sorted_contiguous
               (rows_of [s "abc"; s "abd"; s "dxy"]
                        [s "1|2"; s "1|2|3"; s "3|1"])
               (None : option (list str)) None (Some 100))
    as (labels & _ & _ & Hzip & _); [vm_compute; reflexivity|].
  vm_compute. reflexivity.
Defined.

(** ** Truncation of the text *)




(** ** Label encoding *)

Lemma rmap_Ok {A B} (f : A → result B) (l : list A) (ys : list B) :
  rmap f l = Ok ys ↔ Forall2 (λ x y, f x = Ok y) l ys.
Proof.
  revert ys. induction l as [|x l IH]; intros ys; simpl.
  - split; [intros [= <-]; constructor|by intros ->%Forall2_nil_inv_l].
  - rewrite bind_Ok. split.
    + intros (y & Hy & (ys' & Hys & [= <-])%bind_Ok).
      constructor; [done|by apply IH].
    + intros (y & ys' & Hy & Hys & ->)%Forall2_cons_inv_l.
      exists y. split; [done|]. apply bind_Ok. exists ys'.
      split; [by apply IH|done].
Qed.

Lemma rmap_total {A B} (f : A → result B) (l : list A) :
  (∀ x, x ∈ l → ∃ y, f x = Ok y) → ∃ ys, rmap f l = Ok ys.
Proof.
  induction l as [|x l IH]; intros Hall; simpl; [by eexists|].
  destruct (Hall x) as [y ->]; [left|]. simpl.
  destruct IH as [ys ->]; [|by eexists].
  intros x' Hx'. apply Hall. by right.
Qed.

Lemma rmap_Err {A B} (f : A → result B) (l : list A) :
  (∃ x, x ∈ l ∧ ∃ e, f x = Err e) →
  ∃ x e, x ∈ l ∧ f x = Err e ∧ rmap f l = Err e.
Proof.
  induction l as [|x l IH]; intros (x0 & Hin & e0 & He0).
  - by apply elem_of_nil in Hin.
  - simpl. destruct (f x) as [y|e] eqn:Hfx.
    + apply elem_of_cons in Hin as [->|Hin]; [congruence|].
      destruct IH as (x1 & e1 & Hin1 & Hf1 & Hr1); [by eauto|].
      exists x1, e1. split_and!; [by right|done|]. simpl. by rewrite Hr1.
    + exists x, e. split_and!; [left|done|done].
Qed.

Section label_facts.
Context {Vocab : Type} `{!VocabOps Vocab}.
Implicit Types (ds : SupervisedNLPDataset.t Vocab).

Lemma label_id_Ok ds (l : str) (i : Z) :
  SupervisedNLPDataset.label_id ds l = Ok i ↔
  dict_get l (SupervisedNLPDataset._label2idx ds) = Some i.
Proof.
  unfold SupervisedNLPDataset.label_id. destruct (dict_get _ _); intuition congruence.
Qed.

Lemma label_id_Err ds (l : str) (e : exn) :
  SupervisedNLPDataset.label_id ds l = Err e ↔
  dict_get l (SupervisedNLPDataset._label2idx ds) = None ∧ e = KeyError l.
Proof.
  unfold SupervisedNLPDataset.label_id. destruct (dict_get _ _); intuition congruence.
Qed.

(** A list comprehension of lookups over [labels] raises [KeyError] on its
    first unknown label, and returns when there is none. *)
Lemma lookup_all_unknown ds (labels : list str) :
  (∃ l, l ∈ labels ∧ dict_get l (SupervisedNLPDataset._label2idx ds) = None) →
  ∃ k, k ∈ labels ∧
       dict_get k (SupervisedNLPDataset._label2idx ds) = None ∧
       rmap (SupervisedNLPDataset.label_id ds) labels = Err (KeyError k).
Proof.
  intros (l & Hin & Hl).
  destruct (rmap_Err (SupervisedNLPDataset.label_id ds) labels)
    as (k & e & Hk & He & Hr).
  { exists l. split; [done|]. exists (KeyError l). by apply label_id_Err. }
  apply label_id_Err in He as [Hnone ->]. by exists k.
Qed.

Lemma lookup_all_known ds (labels : list str) :
  (∀ l, l ∈ labels →
        is_Some (dict_get l (SupervisedNLPDataset._label2idx ds))) →
  ∃ ids, rmap (SupervisedNLPDataset.label_id ds) labels = Ok ids ∧
         length ids = length labels.
Proof.
  intros Hall.
  destruct (rmap_total (SupervisedNLPDataset.label_id ds) labels) as [ids Hids].
  { intros l [i Hi]%Hall. exists i. by apply label_id_Ok. }
  exists ids. split; [done|]. apply rmap_Ok in Hids.
  symmetry. by eapply Forall2_length.
Qed.

End label_facts.

(** ** The binarizer of ClassifyDataset *)

Section invert_facts.
Context {K V : Type} `{EqDecision K}.

Lemma elem_of_dict_set (x : K * V) (k : K) (v : V) (d : dict K V) :
  x ∈ dict_set k v d → x = (k, v) ∨ x ∈ d.
Proof.
  induction d as [|[k' v'] d IH]; simpl.
  - intros ->%list_elem_of_singleton. by left.
  - destruct (decide (k' = k)) as [->|Hne].
    + intros [->|Hin]%elem_of_cons; [by left|]. right. by right.
    + intros [->|Hin]%elem_of_cons; [right; left|].
      destruct (IH Hin) as [->|Hin']; [by left|]. right. by right.
Qed.

Lemma elem_of_dict_of_list (x : K * V) (l : list (K * V)) :
  x ∈ dict_of_list l → x ∈ l.
Proof.
  unfold dict_of_list.
  enough (∀ acc : dict K V,
            x ∈ foldl (λ d kv, dict_set kv.1 kv.2 d) acc l →
            x ∈ acc ∨ x ∈ l) as Hgen.
  { intros Hin. destruct (Hgen [] Hin) as [Hnil|]; [|done].
    by apply elem_of_nil in Hnil. }
  induction l as [|[k v] l IH]; intros acc; simpl; [by left|].
  intros [Hin|Hin]%IH.
  - apply elem_of_dict_set in Hin as [->|Hin]; [right; left|by left].
  - right. by right.
Qed.

End invert_facts.

Lemma dict_get_invert_elem (d : dict str Z) (i : Z) (c : str) :
  dict_get i (SupervisedNLPDataset.invert d) = Some c → (c, i) ∈ d.
Proof.
  intros Hin%dict_get_Some_elem%elem_of_dict_of_list.
  apply list_elem_of_fmap in Hin as ([c' i'] & [= -> ->] & Hin). done.
Qed.

(** The class list [[idx2label[i] for i in range(len(label2idx))]]: when it
    can be built, class number [i] is the label whose id is [i], and every
    label of the index is a class. *)
Lemma classes_spec (d : dict str Z) (cls : list str) :
  NoDup (dict_keys d) →
  rmap (ClassifyDataset.label_of_id (SupervisedNLPDataset.invert d))
       (range 0 (Z.of_nat (length d))) = Ok cls →
  length cls = length d ∧
  NoDup cls ∧
  (∀ (i : nat) c, cls !! i = Some c → dict_get c d = Some (Z.of_nat i)) ∧
  (∀ (i : nat) c, dict_get c d = Some (Z.of_nat i) → cls !! i = Some c).
Proof.
  intros Hnd Hcls. rewrite range_0 in Hcls.
  apply rmap_Ok, Forall2_fmap_l in Hcls.
  assert (Hlen : length cls = length d).
  { apply Forall2_length in Hcls. by rewrite length_seq in Hcls. }
  assert (Hget : ∀ (i : nat) c, cls !! i = Some c →
                                dict_get c d = Some (Z.of_nat i)).
  { intros i c Hi.
    destruct (Forall2_lookup_r _ _ _ _ _ Hcls Hi) as (i' & Hi' & Hid).
    apply lookup_seq in Hi' as [-> _]. simpl in Hid.
    unfold ClassifyDataset.label_of_id in Hid.
    destruct (dict_get (Z.of_nat i) _) as [c'|] eqn:Hc'; [|done].
    injection Hid as ->.
    by apply dict_get_elem, dict_get_invert_elem. }
  assert (Hndc : NoDup cls).
  { apply NoDup_alt. intros i j c Hi%Hget Hj%Hget.
    rewrite Hi in Hj. injection Hj. lia. }
  split_and!; [done..|].
  intros i c Hc.
  assert (Hperm : cls ≡ₚ dict_keys d).
  { apply submseteq_length_Permutation.
    - apply NoDup_submseteq; [done|]. intros c' [j Hj]%list_elem_of_lookup.
      apply Hget, dict_get_Some_elem in Hj.
      apply list_elem_of_fmap. by exists (c', Z.of_nat j).
    - unfold dict_keys. by rewrite length_fmap, Hlen. }
  assert (Hin : c ∈ cls).
  { rewrite Hperm. apply dict_get_Some_elem in Hc.
    apply list_elem_of_fmap. by exists (c, Z.of_nat i). }
  apply list_elem_of_lookup in Hin as [j Hj].
  pose proof (Hget _ _ Hj) as Hj'. rewrite Hc in Hj'.
  injection Hj' as Hij. apply Nat2Z.inj in Hij. by subst.
Qed.

Section classify_facts.
Context {Vocab : Type} `{!VocabOps Vocab}.

Lemma init_label2idx_NoDup (dataset : list str) (vocab : option Vocab)
    (label2idx : option (dict str Z)) (segmenter : option (str → list str))
    (max_length : option Z) (ds : SupervisedNLPDataset.t Vocab) :
  (∀ d, label2idx = Some d → NoDup (dict_keys d)) →
  SupervisedNLPDataset.__init__ dataset vocab label2idx segmenter max_length
    = Ok ds →
  NoDup (dict_keys (SupervisedNLPDataset._label2idx ds)).
Proof.
  intros Hinj Hinit. destruct label2idx as [d|].
  - apply init_Ok in Hinit as (st & _ & _ & _ & _ & _ & _ & -> & _).
    by apply Hinj.
  - destruct (built_label_index _ _ _ _ _ Hinit)
      as (labels & _ & Hnd & _ & -> & _).
    unfold dict_keys. rewrite fst_zip; [done|].
    by rewrite length_fmap, length_seq.
Qed.

Lemma classify_init_Ok (dataset : list str) (vocab : option Vocab)
    (label2idx : option (dict str Z)) (segmenter : option (str → list str))
    (max_length : option Z) (cds : ClassifyDataset.t Vocab) :
  ClassifyDataset.__init__ dataset vocab label2idx segmenter max_length
    = Ok cds →
  SupervisedNLPDataset.__init__ dataset vocab label2idx segmenter max_length
    = Ok (ClassifyDataset.super cds) ∧
  rmap (ClassifyDataset.label_of_id
          (SupervisedNLPDataset._idx2label (ClassifyDataset.super cds)))
       (range 0 (Z.of_nat (length (SupervisedNLPDataset._label2idx
                                     (ClassifyDataset.super cds)))))
    = Ok (MultiLabelBinarizer.classes (ClassifyDataset._binarizer cds)).
Proof.
  unfold ClassifyDataset.__init__.
  intros (sup & Hsup & (cls & Hcls & [= <-])%bind_Ok)%bind_Ok. done.
Qed.

End classify_facts.

Lemma classify_preprocess_label {Vocab : Type} (cds : ClassifyDataset.t Vocab)
    (label : str) :
  NoDup (MultiLabelBinarizer.classes (ClassifyDataset._binarizer cds)) →
  ClassifyDataset.preprocess_label cds label =
    Ok (MultiLabelBinarizer.transform_row (ClassifyDataset._binarizer cds)
          (split pipe label)).
Proof.
  intros Hnd.
  unfold ClassifyDataset.preprocess_label, MultiLabelBinarizer.fit_transform.
  by rewrite decide_True.
Qed.

Lemma transform_row_lookup (b : MultiLabelBinarizer.t) (labels : list str)
    (i : nat) :
  MultiLabelBinarizer.transform_row b labels !! i =
    (λ c, if decide (c ∈ labels) then 1 else 0)
      <$> MultiLabelBinarizer.classes b !! i.
Proof. unfold MultiLabelBinarizer.transform_row. apply list_lookup_fmap. Qed.

Lemma transform_row_ext (b : MultiLabelBinarizer.t) (l1 l2 : list str) :
  (∀ l, l ∈ l1 ↔ l ∈ l2) →
  MultiLabelBinarizer.transform_row b l1 =
  MultiLabelBinarizer.transform_row b l2.
Proof.
  intros Heq. unfold MultiLabelBinarizer.transform_row.
  apply map_ext. intros c.
  destruct (decide (c ∈ l1)) as [H1|H1], (decide (c ∈ l2)) as [H2|H2];
    try done; by apply Heq in H1 || apply Heq in H2.
Qed.

(** C7: a [ClassifyDataset] over [K] indexed labels encodes every label
    string as a vector of length [K] with entries 0 or 1, entry [i] being 1
    exactly when the label with id [i] occurs in the string; two strings
    with the same set of labels get the same vector. *)
Theorem multi_hot_encoding {Vocab : Type} `{!VocabOps Vocab}
    (dataset : list str) (vocab : option Vocab)
    (label2idx : option (dict str Z)) (segmenter : option (str → list str))
    (max_length : option Z) (cds : ClassifyDataset.t Vocab) :
  (∀ d, label2idx = Some d → NoDup (dict_keys d)) →
  ClassifyDataset.__init__ dataset vocab label2idx segmenter max_length
    = Ok cds →
  let index := SupervisedNLPDataset._label2idx (ClassifyDataset.super cds) in
  ∀ label : str,
    ∃ v : list Z,
      ClassifyDataset.preprocess_label cds label = Ok v ∧
      length v = length index ∧
      (∀ (i : nat) x, v !! i = Some x → x = 0 ∨ x = 1) ∧
      (∀ i : nat, (i < length index)%nat →
         v !! i = Some 1 ↔
         ∃ l, l ∈ split pipe label ∧ dict_get l index = Some (Z.of_nat i)) ∧
      (∀ label' : str,
         (∀ l, l ∈ split pipe label ↔ l ∈ split pipe label') →
         ClassifyDataset.preprocess_label cds label' = Ok v).
Proof.
  intros Hinj [Hsup Hcls]%classify_init_Ok index label.
  pose proof (init_label2idx_NoDup _ _ _ _ _ _ Hinj Hsup) as Hnd.
  apply init_Ok in Hsup as Hsup'.
  destruct Hsup' as (_ & _ & _ & _ & _ & _ & _ & _ & Hi2l).
  rewrite Hi2l in Hcls.
  apply classes_spec in Hcls as (Hlen & Hndc & Hget & Hfind); [|done].
  fold index in Hlen, Hget, Hfind.
  set (b := ClassifyDataset._binarizer cds) in *.
  exists (MultiLabelBinarizer.transform_row b (split pipe label)).
  split_and!.
  - by apply classify_preprocess_label.
  - unfold MultiLabelBinarizer.transform_row. by rewrite length_map.
  - intros i x. rewrite transform_row_lookup.
    destruct (_ !! i) as [c|]; simpl; [|done].
    intros [= <-]. destruct (decide _); auto.
  - intros i Hi. rewrite transform_row_lookup. split.
    + destruct (_ !! i) as [c|] eqn:Hc; simpl; [|done].
      destruct (decide (c ∈ split pipe label)); [|done].
      intros _. exists c. split; [done|]. by apply Hget.
    + intros (l & Hl & Hid). rewrite (Hfind _ _ Hid). simpl.
      by rewrite decide_True.
  - intros label' Heq. rewrite classify_preprocess_label by done.
    f_equal. symmetry. by apply transform_row_ext.
Qed.

Lemma multi_hot_encoding_witness :
  ∃ cds, ClassifyDataset.__init__
           (rows_of [s "abc"; s "abd"; s "dxy"] [s "1|2"; s "1|2|3"; s "3|1"])
           (None : option (list str)) None None (Some 100) = Ok cds ∧
         ClassifyDataset.preprocess_label cds (s "1|3") = Ok [1; 0; 1] ∧
         ClassifyDataset.preprocess_label cds (s "3|1") = Ok [1; 0; 1].
Proof.
  eexists. split; [vm_compute; reflexivity|].
  match goal with
  | |- context [ClassifyDataset.preprocess_label ?c _] => set (cds := c)
  end.
  assert (Hinit : ClassifyDataset.__init__
                    (rows_of [s "abc"; s "abd"; s "dxy"]
                             [s "1|2"; s "1|2|3"; s "3|1"])
                    (None : option (list str)) None None (Some 100) = Ok cds)
    by (vm_compute; reflexivity).
  assert (Hinj : ∀ d : dict str Z, None = Some d → NoDup (dict_keys d))
    by done.
  destruct (multi_hot_encoding _ _ _ _ _ _ Hinj Hinit (s "1|3"))
    as (v & Hv & _ & _ & _ & Hperm).
  assert (v = [1; 0; 1]) as -> by (vm_compute in Hv; congruence).
  split; [done|]. apply Hperm. intros l.
  replace (split pipe (s "1|3")) with [s "1"; s "3"] by done.
  replace (split pipe (s "3|1")) with [s "3"; s "1"] by done.
  rewrite !elem_of_cons, !elem_of_nil. tauto.
Defined.

Section variant_facts.
Context {Vocab : Type} `{!VocabOps Vocab}.


Lemma classify_classes (dataset : list str) (vocab : option Vocab)
    (label2idx : option (dict str Z)) (segmenter : option (str → list str))
    (max_length : option Z) (cds : ClassifyDataset.t Vocab) :
  (∀ d, label2idx = Some d → NoDup (dict_keys d)) →
  ClassifyDataset.__init__ dataset vocab label2idx segmenter max_length
    = Ok cds →
  let index := SupervisedNLPDataset._label2idx (ClassifyDataset.super cds) in
  let cls := MultiLabelBinarizer.classes (ClassifyDataset._binarizer cds) in
  length cls = length index ∧
  NoDup cls ∧
  (∀ (i : nat) c, cls !! i = Some c → dict_get c index = Some (Z.of_nat i)) ∧
  (∀ (i : nat) c, dict_get c index = Some (Z.of_nat i) → cls !! i = Some c).
Proof.
  intros Hinj [Hsup Hcls]%classify_init_Ok index cls.
  pose proof (init_label2idx_NoDup _ _ _ _ _ _ Hinj Hsup) as Hnd.
  apply init_Ok in Hsup as (_ & _ & _ & _ & _ & _ & _ & _ & Hi2l).
  rewrite Hi2l in Hcls. by apply classes_spec.
Qed.

End variant_facts.









(** ** Gradient clipping *)

Section clip_facts.
Context {F : Type} `{!FloatOps F}.

Import BaseModel.


Lemma scale_grad_absent (c : F) (p : param F) :
  grad p = None → scale_grad c p = p.
Proof. destruct p as [d g]. simpl. by intros ->. Qed.


End clip_facts.



(** ** Ranges and the number of learning-rate updates *)

Lemma range_nil (lo hi : Z) : hi ≤ lo → range lo hi = [].
Proof. intros Hle. unfold range. by replace (Z.to_nat (hi - lo)) with 0%nat by lia. Qed.

Lemma range_cons (lo hi : Z) : lo < hi → range lo hi = lo :: range (lo + 1) hi.
Proof.
  intros Hlt. unfold range.
  replace (Z.to_nat (hi - lo)) with (S (Z.to_nat (hi - (lo + 1)))) by lia.
  simpl. f_equal; [lia|].
  rewrite <-fmap_S_seq, <-list_fmap_compose. apply map_ext. intros i. simpl. lia.
Qed.

Lemma range_snoc (lo hi : Z) : lo ≤ hi → range lo (hi + 1) = range lo hi ++ [hi].
Proof.
  intros Hle. unfold range.
  replace (Z.to_nat (hi + 1 - lo)) with (Z.to_nat (hi - lo) + 1)%nat by lia.
  rewrite seq_app, fmap_app. simpl. do 2 f_equal. lia.
Qed.

Lemma elem_of_range (lo hi e : Z) : e ∈ range lo hi ↔ lo ≤ e < hi.
Proof.
  unfold range. rewrite list_elem_of_fmap. split.
  - intros (i & -> & Hi%elem_of_seq). lia.
  - intros He. exists (Z.to_nat (e - lo)). split; [lia|].
    apply elem_of_seq. lia.
Qed.

Lemma lr_updates_1 (u : Z) : lr_updates u 1 = 0%nat.
Proof. unfold lr_updates. by rewrite range_nil. Qed.

Lemma lr_updates_succ (u k : Z) :
  1 ≤ k →
  lr_updates u (k + 1) =
    (lr_updates u k + if updates_lr u (k + 1) then 1 else 0)%nat.
Proof.
  intros Hk. unfold lr_updates, updates_lr.
  rewrite (range_snoc 2 (k + 1)) by lia.
  rewrite filter_app, length_app. f_equal.
  rewrite (bool_decide_true (k + 1 ≠ 1)) by lia. rewrite andb_true_r.
  destruct (decide ((k + 1) mod u = 0)) as [Hm|Hm].
  - rewrite filter_cons_True by done. by rewrite bool_decide_true.
  - rewrite filter_cons_False by done. by rewrite bool_decide_false.
Qed.

Lemma div_succ (u k : Z) :
  0 < u → 0 ≤ k →
  (k + 1) / u = k / u + (if bool_decide ((k + 1) mod u = 0) then 1 else 0).
Proof.
  intros Hu Hk.
  pose proof (Z.div_mod k u ltac:(lia)) as Hdm.
  pose proof (Z.mod_pos_bound k u Hu) as Hb.
  destruct (decide (k mod u = u - 1)) as [Hlast|Hlast].
  - assert (Hq : (k + 1) / u = k / u + 1).
    { symmetry. apply (Z.div_unique _ _ _ 0); lia. }
    assert (Hr : (k + 1) mod u = 0).
    { symmetry. apply (Z.mod_unique _ _ (k / u + 1)); lia. }
    by rewrite Hq, bool_decide_true.
  - assert (Hq : (k + 1) / u = k / u).
    { symmetry. apply (Z.div_unique _ _ _ (k mod u + 1)); lia. }
    assert (Hr : (k + 1) mod u = k mod u + 1).
    { symmetry. apply (Z.mod_unique _ _ (k / u)); lia. }
    rewrite Hq, bool_decide_false by lia. lia.
Qed.

(** For a cadence of at least two epochs, [floor(e / lr_update_epochs)]
    updates have been made when epoch [e] runs. *)
Lemma lr_updates_div (u e : Z) :
  2 ≤ u → 1 ≤ e → lr_updates u e = Z.to_nat (e / u).
Proof.
  intros Hu He. replace e with (1 + Z.of_nat (Z.to_nat (e - 1))) by lia.
  induction (Z.to_nat (e - 1)) as [|m IH].
  - simpl. rewrite lr_updates_1. by rewrite Z.div_small by lia.
  - replace (1 + Z.of_nat (S m)) with ((1 + Z.of_nat m) + 1) by lia.
    rewrite lr_updates_succ, IH by lia.
    rewrite (div_succ u (1 + Z.of_nat m)) by lia.
    unfold updates_lr. rewrite (bool_decide_true (_ ≠ 1)) by lia.
    rewrite andb_true_r.
    assert (0 ≤ (1 + Z.of_nat m) / u) by (apply Z.div_pos; lia).
    destruct (bool_decide _); lia.
Qed.

(** With a cadence of one epoch every epoch but the first updates. *)
Lemma lr_updates_every (e : Z) : 1 ≤ e → lr_updates 1 e = Z.to_nat (e - 1).
Proof.
  intros He. replace e with (1 + Z.of_nat (Z.to_nat (e - 1))) at 1 by lia.
  induction (Z.to_nat (e - 1)) as [|m IH].
  - simpl. by rewrite lr_updates_1.
  - replace (1 + Z.of_nat (S m)) with ((1 + Z.of_nat m) + 1) by lia.
    rewrite lr_updates_succ, IH by lia.
    unfold updates_lr. rewrite Z.mod_1_r.
    rewrite bool_decide_true by done. rewrite bool_decide_true by lia.
    simpl. lia.
Qed.

(** ** The epoch loop *)

Section fit_facts.
Context {F batch : Type} `{!FloatOps F} `{!Engine F batch}.

Import BaseModel.

Ltac run_monad :=
  cbv [mbind mret Train_bind Train_ret get emit lift raise set_trainable
       set_trained set_learning_rate]; simpl.

Lemma one_batch_step_run (clip : F) (acc : F * Z) (b : batch)
    (st : state F) :
  ∃ tr' total,
    one_batch_step clip acc b st =
      ({| _trainable := tr'; _trained := _trained st;
          learning_rate := learning_rate st; trace := trace st |},
       Ok (total, acc.2 + 1)).
Proof.
  unfold one_batch_step. run_monad.
  destruct (forward_backward b (_trainable st)) as [loss tr1]. run_monad.
  by eexists _, _.
Qed.

(** The batch loop of [_one_epoch] cannot fail; it only replaces the
    parameters and counts the batches. *)
Lemma batch_loop_run (clip : F) (batches : list batch) (acc : F * Z)
    (st : state F) :
  ∃ tr' total,
    fold_each batches (one_batch_step clip) acc st =
      ({| _trainable := tr'; _trained := _trained st;
          learning_rate := learning_rate st; trace := trace st |},
       Ok (total, acc.2 + Z.of_nat (length batches))).
Proof.
  revert acc st. induction batches as [|b bs IH]; intros [total n] st.
  - exists (_trainable st), total. destruct st. simpl.
    by rewrite Z.add_0_r.
  - change (fold_each (b :: bs) (one_batch_step clip) (total, n) st)
      with (match one_batch_step clip (total, n) b st with
            | (st', Ok a) => fold_each bs (one_batch_step clip) a st'
            | (st', Err e) => (st', Err e)
            end).
    destruct (one_batch_step_run clip (total, n) b st) as (tr1 & t1 & ->).
    edestruct IH as (tr' & total' & ->). simpl.
    exists tr', total'. do 3 f_equal. lia.
Qed.

Lemma one_epoch_run (batches : list batch) (epoch : Z) (clip : F)
    (st : state F) :
  ∃ tr' r,
    _one_epoch batches epoch clip st =
      ({| _trainable := tr'; _trained := _trained st;
          learning_rate := learning_rate st;
          trace := trace st ++ [EvEpoch epoch (learning_rate st)] |}, r) ∧
    (batches = [] → r = Err ZeroDivisionError) ∧
    (batches ≠ [] → ∃ avg_loss, r = Ok avg_loss).
Proof.
  unfold _one_epoch. run_monad.
  edestruct (batch_loop_run clip batches (f_of_Z 0, 0)) as (tr' & total & ->).
  simpl. destruct (decide _) as [Hz|Hnz].
  - exists tr', (Err ZeroDivisionError). split_and!; [done..|].
    intros Hne. destruct batches; [done|simpl in Hz; lia].
  - eexists tr', (Ok _). split_and!; [done| |by eauto].
    intros ->. done.
Qed.

Lemma bind_run {A B} (m : Train A) (k : A → Train B) (st st1 : state F)
    (a : A) :
  m st = (st1, Ok a) → (m ≫= k) st = k a st1.
Proof. intros Hm. unfold mbind, Train_bind. by rewrite Hm. Qed.

Lemma bind_fail {A B} (m : Train A) (k : A → Train B) (st st1 : state F)
    (e : exn) :
  m st = (st1, Err e) → (m ≫= k) st = (st1, Err e).
Proof. intros Hm. unfold mbind, Train_bind. by rewrite Hm. Qed.

Lemma before_epoch_run (update_lr : bool) (factor : F) (st : state F) :
  _before_epoch update_lr factor st =
    ({| _trainable := _trainable st; _trained := _trained st;
        learning_rate :=
          if update_lr then fmul (learning_rate st) factor
          else learning_rate st;
        trace := trace st |}, Ok ()).
Proof. unfold _before_epoch. destruct update_lr, st; by run_monad. Qed.

Section epoch.
Context {D : Type} (hvd : option Z) (train_dataloader : Z → list batch)
  (valid_dataset : option D) (factor : F) (lr_update_epochs : Z) (clip : F)
  (checkpoint : option str) (save_frequency : Z).

Let body := fit_epoch hvd train_dataloader valid_dataset factor
              lr_update_epochs clip checkpoint save_frequency.

(** What one pass of the epoch loop does to the trainer, the flag and the
    trace. *)
Lemma fit_epoch_run (epoch : Z) (st : state F) :
  let rate :=
    if updates_lr lr_update_epochs epoch
    then fmul (learning_rate st) factor else learning_rate st in
  ∃ st' r evs,
    body epoch st = (st', r) ∧
    trace st' = trace st ++ evs ∧
    (lr_update_epochs = 0 → st' = st ∧ evs = []) ∧
    (lr_update_epochs ≠ 0 →
       learning_rate st' = rate ∧ epoch_events evs = [(epoch, rate)]) ∧
    (train_dataloader epoch = [] →
       _trained st' = _trained st ∧
       (lr_update_epochs ≠ 0 → evs = [EvEpoch epoch rate])) ∧
    (∀ x, r = Err x → x = ZeroDivisionError) ∧
    succeeded r =
      bool_decide (lr_update_epochs ≠ 0) &&
      bool_decide (train_dataloader epoch ≠ []) &&
      negb (is_coordinator hvd && negb (is_None checkpoint) &&
            bool_decide (save_frequency = 0)) ∧
    (succeeded r = true → _trained st' = true) ∧
    save_events evs =
      match checkpoint with
      | Some prefix =>
          if succeeded r && is_coordinator hvd &&
             bool_decide (epoch mod save_frequency = 0)
          then [checkpoint_path prefix epoch] else []
      | None => []
      end.
Proof.
  intros rate. unfold body, fit_epoch.
  destruct (decide (lr_update_epochs = 0)) as [Hu|Hu].
  { rewrite (bind_fail _ _ st st ZeroDivisionError)
      by (unfold lift, py_mod; by rewrite decide_True).
    exists st, (Err ZeroDivisionError), []. rewrite app_nil_r.
    rewrite (bool_decide_false (lr_update_epochs ≠ 0)) by (by intros ?).
    split_and!; try done; try intuition congruence. by destruct checkpoint. }
  rewrite (bool_decide_true _ Hu).
  rewrite (bind_run _ _ st st (epoch mod lr_update_epochs))
    by (unfold lift, py_mod; by rewrite decide_False).
  rewrite (bind_run _ _ _ _ () (before_epoch_run _ _ _)).
  fold (updates_lr lr_update_epochs epoch). fold rate.
  match goal with
  | |- context [_one_epoch ?b ?e ?c ≫= _] =>
      match goal with
      | |- context [(_ ≫= _) ?s] =>
          destruct (one_epoch_run b e c s) as (tr' & r1 & Hone & Hnil & Hcons)
      end
  end.
  simpl in Hone.
  destruct (decide (train_dataloader epoch = [])) as [Hdl|Hdl].
  { rewrite (Hnil Hdl) in Hone. rewrite (bind_fail _ _ _ _ _ Hone).
    eexists _, (Err ZeroDivisionError), [EvEpoch epoch rate].
    rewrite (bool_decide_false (train_dataloader epoch ≠ []))
      by (by intros ?).
    rewrite andb_false_r. simpl.
    split_and!; try done; try intuition congruence. by destruct checkpoint. }
  destruct (Hcons Hdl) as [avg ->].
  rewrite (bind_run _ _ _ _ _ Hone).
  rewrite (bool_decide_true _ Hdl). run_monad.
  destruct (is_coordinator hvd) eqn:Hco; run_monad.
  2:{ eexists _, (Ok ()), [EvEpoch epoch rate]. simpl.
      split_and!; try done; try tauto. by destruct checkpoint. }
  destruct checkpoint as [prefix|]; run_monad.
  2:{ destruct valid_dataset; run_monad.
      - eexists _, (Ok ()), [EvEpoch epoch rate; EvTrainLog avg; EvValidLog].
        simpl. rewrite <-!(assoc_L app). simpl.
        split_and!; try done; tauto.
      - eexists _, (Ok ()), [EvEpoch epoch rate; EvTrainLog avg].
        simpl. rewrite <-!(assoc_L app). simpl.
        split_and!; try done; tauto. }
  unfold py_mod. destruct (decide (save_frequency = 0)) as [Hs|Hs].
  { rewrite (bool_decide_true _ Hs). simpl.
    eexists _, (Err ZeroDivisionError), [EvEpoch epoch rate; EvTrainLog avg].
    simpl. rewrite <-!(assoc_L app). simpl.
    split_and!; try done; intuition congruence. }
  rewrite (bool_decide_false _ Hs). simpl.
  destruct (bool_decide (epoch mod save_frequency = 0)) eqn:Hsave;
    destruct valid_dataset; simpl.
  - eexists _, (Ok ()), [EvEpoch epoch rate; EvTrainLog avg;
                         EvSave (checkpoint_path prefix epoch); EvValidLog].
    simpl. rewrite <-!(assoc_L app). simpl.
    split_and!; try done; tauto.
  - eexists _, (Ok ()), [EvEpoch epoch rate; EvTrainLog avg;
                         EvSave (checkpoint_path prefix epoch)].
    simpl. rewrite <-!(assoc_L app). simpl.
    split_and!; try done; tauto.
  - eexists _, (Ok ()), [EvEpoch epoch rate; EvTrainLog avg; EvValidLog].
    simpl. rewrite <-!(assoc_L app). simpl.
    split_and!; try done; tauto.
  - eexists _, (Ok ()), [EvEpoch epoch rate; EvTrainLog avg].
    simpl. rewrite <-!(assoc_L app). simpl.
    split_and!; try done; tauto.
Qed.

Lemma rates_from_app (r : F) (l1 l2 : list Z) :
  ∃ r', rates_from factor lr_update_epochs r (l1 ++ l2) =
          rates_from factor lr_update_epochs r l1 ++
          rates_from factor lr_update_epochs r' l2.
Proof.
  revert r. induction l1 as [|e l1 IH]; intros r; simpl; [by exists r|].
  edestruct IH as [r' ->]. by exists r'.
Qed.

(** The whole loop over a list of epochs: the epochs entered and the epochs
    completed are prefixes of the list, and the whole list when the loop
    returns. *)
Lemma fit_loop_run (epochs : list Z) (st : state F) :
  ∃ st' r evs entered completed,
    for_each epochs body st = (st', r) ∧
    trace st' = trace st ++ evs ∧
    entered `prefix_of` epochs ∧
    completed `prefix_of` epochs ∧
    (succeeded r = true → entered = epochs ∧ completed = epochs) ∧
    (∀ x, r = Err x → x = ZeroDivisionError) ∧
    epoch_events evs =
      rates_from factor lr_update_epochs (learning_rate st) entered ∧
    save_events evs =
      match checkpoint with
      | Some prefix =>
          if is_coordinator hvd
          then checkpoint_path prefix <$>
                 filter (λ e, e mod save_frequency = 0) completed
          else []
      | None => []
      end ∧
    (lr_update_epochs ≠ 0 →
     (∀ e, e ∈ epochs → train_dataloader e ≠ []) →
     is_coordinator hvd && negb (is_None checkpoint) &&
       bool_decide (save_frequency = 0) = false →
     succeeded r = true).
Proof.
  revert st. induction epochs as [|e es IH]; intros st.
  { exists st, (Ok ()), [], [], []. rewrite app_nil_r.
    split_and!; try done. by destruct checkpoint, (is_coordinator hvd). }
  destruct (fit_epoch_run e st)
    as (st1 & r1 & evs1 & Hrun & Htr & Hu0 & Hu & Hdl & Herr & Hok & _ & Hsave).
  change (for_each (e :: es) body st) with ((body e ≫= λ _, for_each es body) st).
  destruct r1 as [[]|x].
  - rewrite (bind_run _ _ _ _ _ Hrun).
    destruct (IH st1)
      as (st' & r & evs & ent & com & -> & Htr' & Hent & Hcom & Hall & Herr'
          & Hrates & Hsaves & Hsucc).
    simpl in Hok. symmetry in Hok.
    apply andb_true_iff in Hok as [[Hnz%bool_decide_eq_true _]%andb_true_iff _].
    destruct (Hu Hnz) as [Hrate Hev].
    exists st', r, (evs1 ++ evs), (e :: ent), (e :: com).
    split_and!; try done.
    + by rewrite Htr', Htr, (assoc_L app).
    + by apply prefix_cons.
    + by apply prefix_cons.
    + intros [-> ->]%Hall. done.
    + unfold epoch_events in *. rewrite omap_app, Hev, Hrates, Hrate. done.
    + unfold save_events in *. rewrite omap_app, Hsave, Hsaves.
      destruct checkpoint as [prefix|]; [|done]. simpl.
      destruct (is_coordinator hvd); [|done]. simpl.
      destruct (decide (e mod save_frequency = 0)) as [Hm|Hm].
      * rewrite bool_decide_true, filter_cons_True by done. done.
      * rewrite bool_decide_false, filter_cons_False by done. done.
    + intros Hnz' Hne Hsf. apply Hsucc; [done| |done].
      intros e' He'. apply Hne. by right.
  - rewrite (bind_fail _ _ _ _ _ Hrun). pose proof (Herr _ eq_refl) as ->.
    destruct (decide (lr_update_epochs = 0)) as [Hz|Hnz].
    + destruct (Hu0 Hz) as [-> ->].
      exists st, (Err ZeroDivisionError), [], [], []. rewrite app_nil_r.
      split_and!; try done; try apply prefix_nil.
      by destruct checkpoint, (is_coordinator hvd).
    + destruct (Hu Hnz) as [Hrate Hev].
      exists st1, (Err ZeroDivisionError), evs1, [e], [].
      split_and!; try done; try apply prefix_nil.
      * apply prefix_cons, prefix_nil.
      * rewrite Hsave. simpl.
        by destruct checkpoint, (is_coordinator hvd).
      * intros _ Hne Hsf. simpl in Hok. rewrite Hsf in Hok.
        rewrite (bool_decide_true _ Hnz) in Hok.
        rewrite bool_decide_true in Hok; [done|]. apply Hne. left.
Qed.

End epoch.

(** [_fit]: the assertion, the trainer at rate [lr], then the loop. *)
Lemma fit_unfold {D} (hvd : option Z) (train_dataloader : Z → list batch)
    (valid_dataset : option D) (lr : F) (n_epochs : Z) (factor : F)
    (lr_update_epochs : Z) (clip : F) (checkpoint : option str)
    (save_frequency : Z) (st : state F) :
  _fit hvd train_dataloader valid_dataset lr n_epochs factor lr_update_epochs
    clip checkpoint save_frequency st =
  if decide (length (_trainable st) = 0%nat) then (st, Err AssertionError)
  else for_each (range 1 (n_epochs + 1))
         (fit_epoch hvd train_dataloader valid_dataset factor
            lr_update_epochs clip checkpoint save_frequency)
         {| _trainable := _trainable st; _trained := _trained st;
            learning_rate := lr; trace := trace st |}.
Proof.
  unfold _fit. run_monad. by destruct (decide _).
Qed.

End fit_facts.

(** ** The learning-rate schedule *)

Section schedule_facts.
Context {F : Type} `{!FloatOps F} (lr factor : F) (u : Z).

Lemma decayed_step (k : Z) :
  0 ≤ k →
  (if updates_lr u (k + 1) then fmul (decayed lr factor (lr_updates u k)) factor
   else decayed lr factor (lr_updates u k))
  = decayed lr factor (lr_updates u (k + 1)).
Proof.
  intros Hk. destruct (decide (k = 0)) as [->|Hk0].
  - change (0 + 1) with 1. rewrite lr_updates_1. unfold updates_lr, lr_updates.
    rewrite (bool_decide_false (1 ≠ 1)) by (by intros ?).
    rewrite andb_false_r. by rewrite range_nil.
  - rewrite lr_updates_succ by lia.
    destruct (updates_lr u (k + 1)); [|by rewrite Nat.add_0_r].
    by rewrite Nat.add_1_r.
Qed.

Lemma rates_from_range (m : nat) (k : Z) :
  0 ≤ k →
  rates_from factor u (decayed lr factor (lr_updates u k))
    (range (k + 1) (k + 1 + Z.of_nat m))
  = (λ e, (e, decayed lr factor (lr_updates u e)))
      <$> range (k + 1) (k + 1 + Z.of_nat m).
Proof.
  revert k. induction m as [|m IH]; intros k Hk.
  - by rewrite range_nil by lia.
  - rewrite range_cons by lia. simpl. rewrite decayed_step by done.
    f_equal.
    replace (k + 1 + Z.of_nat (S m)) with (k + 1 + 1 + Z.of_nat m) by lia.
    by apply IH; lia.
Qed.

Lemma rates_from_epochs (n_epochs : Z) :
  rates_from factor u lr (range 1 (n_epochs + 1))
  = (λ e, (e, decayed lr factor (lr_updates u e))) <$> range 1 (n_epochs + 1).
Proof.
  destruct (decide (n_epochs ≤ 0)) as [Hn|Hn]; [by rewrite range_nil by lia|].
  pose proof (rates_from_range (Z.to_nat n_epochs) 0 ltac:(lia)) as Hr.
  replace (0 + 1 + Z.of_nat (Z.to_nat n_epochs)) with (n_epochs + 1) in Hr
    by lia.
  unfold lr_updates at 1 in Hr. by rewrite range_nil in Hr by lia.
Qed.

End schedule_facts.

(** C1 (as amended): while epoch [e] of a run of [_fit] is running, the
    learning rate is [lr] multiplied [m] times by [lr_update_factor], [m]
    being the number of epochs [k] in [2..e] with
    [k % lr_update_epochs == 0]; that is [floor(e / lr_update_epochs)] for a
    cadence of two or more epochs, and [e - 1] for a cadence of one. A run
    that returns has entered the epochs [1..n_epochs] in order with these
    rates. *)
Theorem learning_rate_schedule {F batch D : Type} `{!FloatOps F}
    `{!Engine F batch} (hvd : option Z) (train_dataloader : Z → list batch)
    (valid_dataset : option D) (lr : F) (n_epochs : Z) (lr_update_factor : F)
    (lr_update_epochs : Z) (clip : F) (checkpoint : option str)
    (save_frequency : Z) (st : BaseModel.state F) :
  ∃ st' r evs,
    BaseModel._fit hvd train_dataloader valid_dataset lr n_epochs
      lr_update_factor lr_update_epochs clip checkpoint save_frequency st
      = (st', r) ∧
    BaseModel.trace st' = BaseModel.trace st ++ evs ∧
    (∀ e rate, (e, rate) ∈ epoch_events evs →
       1 ≤ e ≤ n_epochs ∧
       rate = decayed lr lr_update_factor (lr_updates lr_update_epochs e)) ∧
    (succeeded r = true →
       epoch_events evs =
         (λ e, (e, decayed lr lr_update_factor
                     (lr_updates lr_update_epochs e)))
           <$> range 1 (n_epochs + 1)) ∧
    (∀ e, 1 ≤ e → 2 ≤ lr_update_epochs →
          lr_updates lr_update_epochs e = Z.to_nat (e / lr_update_epochs)) ∧
    (∀ e, 1 ≤ e → lr_update_epochs = 1 →
          lr_updates lr_update_epochs e = Z.to_nat (e - 1)).
Proof.
  rewrite fit_unfold.
  destruct (decide (length (BaseModel._trainable st) = 0%nat)) as [He|He].
  { exists st, (Err AssertionError), []. rewrite app_nil_r.
    split_and!; try done.
    - intros e rate Hin. by apply elem_of_nil in Hin.
    - intros e ??. by apply lr_updates_div.
    - intros e ? ->. by apply lr_updates_every. }
  match goal with
  | |- context [BaseModel.for_each ?es ?b ?s] =>
      destruct (fit_loop_run hvd train_dataloader valid_dataset
                  lr_update_factor lr_update_epochs clip checkpoint
                  save_frequency es s)
        as (st' & r & evs & ent & com & Hrun & Htr & Hent & _ & Hall & _
            & Hrates & _)
  end.
  exists st', r, evs. simpl in Htr, Hrates.
  split_and!; try done.
  - intros e rate Hin. rewrite Hrates in Hin.
    destruct Hent as [rest Hrest].
    destruct (rates_from_app lr_update_factor lr_update_epochs lr ent rest)
      as [r' Happ].
    rewrite <-Hrest, rates_from_epochs in Happ.
    assert (Hin' : (e, rate) ∈
              (λ e, (e, decayed lr lr_update_factor
                          (lr_updates lr_update_epochs e)))
                <$> range 1 (n_epochs + 1)).
    { rewrite Happ. apply elem_of_app. by left. }
    apply list_elem_of_fmap in Hin' as (e' & [= -> ->] & He'%elem_of_range).
    split; [lia|done].
  - intros [-> _]%Hall. by rewrite Hrates, rates_from_epochs.
  - intros e ??. by apply lr_updates_div.
  - intros e ? ->. by apply lr_updates_every.
Qed.

Lemma learning_rate_schedule_witness :
  epoch_events
    (BaseModel.trace
       (BaseModel._fit (D := unit) None one_batch_loader None (Qmake 1 100) 6
          (Qmake 1 2) 2 (inject_Z 5) None 1 fresh_model).1)
  = [(1, Qmake 1 100); (2, Qmake 1 200); (3, Qmake 1 200);
     (4, Qmake 1 400); (5, Qmake 1 400); (6, Qmake 1 800)].
Proof.
  destruct (learning_rate_schedule (D := unit) None one_batch_loader None
              (Qmake 1 100) 6 (Qmake 1 2) 2 (inject_Z 5) None 1 fresh_model)
    as (st' & r & evs & Hrun & Htr & _ & Hok & _).
  rewrite Hrun. simpl fst. rewrite Htr. simpl app.
  assert (r = Ok ()) as -> by (vm_compute in Hrun; congruence).
  rewrite (Hok eq_refl). vm_compute. reflexivity.
Defined.

(** C1 as stated fails: with [lr = 0.01], [lr_update_factor = 0.5] and
    [lr_update_epochs = 2], epoch 2 runs at rate 0.005, while the formula
    [lr * factor^floor((e-1)/lr_update_epochs)] gives 0.01 for it. *)
Lemma learning_rate_schedule_counterexample :
  let run := BaseModel._fit (D := unit) None one_batch_loader None
               (Qmake 1 100) 6 (Qmake 1 2) 2 (inject_Z 5) None 1 fresh_model in
  run.2 = Ok () ∧
  (2, Qmake 1 200) ∈ epoch_events (BaseModel.trace run.1) ∧
  spec_rate (Qmake 1 100) (Qmake 1 2) 2 2 = Qmake 1 100 ∧
  ¬ Qeq (Qmake 1 200) (spec_rate (Qmake 1 100) (Qmake 1 2) 2 2).
Proof.
  intros run. split_and!.
  - vm_compute. reflexivity.
  - replace (epoch_events (BaseModel.trace run.1))
      with [(1, Qmake 1 100); (2, Qmake 1 200); (3, Qmake 1 200);
            (4, Qmake 1 400); (5, Qmake 1 400); (6, Qmake 1 800)]
      by (vm_compute; reflexivity).
    right. left.
  - vm_compute. reflexivity.
  - vm_compute. discriminate.
Qed.

(** ** Checkpoints *)






(** ** Empty datasets *)



(** * Further properties of the datasets *)

(** ** Rows and fields *)

Lemma split_no_sep (sep : char) (x : str) : sep ∉ x → split sep x = [x].
Proof.
  induction x as [|c x IH]; [done|]. rewrite not_elem_of_cons.
  intros [Hne Hx]. simpl. rewrite decide_False by done. by rewrite IH.
Qed.

Lemma split_app_sep (sep : char) (f x : str) :
  sep ∉ f → split sep (f ++ sep :: x) = f :: split sep x.
Proof.
  induction f as [|c f IH]; simpl.
  - intros _. by rewrite decide_True.
  - rewrite not_elem_of_cons. intros [Hne Hf].
    rewrite decide_False by done. by rewrite IH.
Qed.

Lemma split_join (sep : char) (fields : list str) :
  fields ≠ [] → Forall (λ f, sep ∉ f) fields →
  split sep (join sep fields) = fields.
Proof.
  intros Hne Hall. induction Hall as [|f fields Hf Hall IH]; [done|].
  destruct fields as [|g fields].
  - simpl. by apply split_no_sep.
  - change (join sep (f :: g :: fields))
      with (f ++ sep :: join sep (g :: fields)).
    rewrite split_app_sep by done. f_equal. by apply IH.
Qed.

Lemma length_split (sep : char) (x : str) :
  length (split sep x) = S (occurrences sep x).
Proof.
  unfold occurrences. induction x as [|c x IH]; [done|]. simpl.
  destruct (decide (c = sep)) as [->|Hne].
  - rewrite filter_cons_True by done. simpl. by rewrite IH.
  - rewrite filter_cons_False by done.
    destruct (split sep x) as [|w ws] eqn:Hs; [by apply split_nonempty in Hs|].
    simpl in *. done.
Qed.

Lemma occurrences_pos {K} `{EqDecision K} (k : K) (l : list K) :
  (0 < occurrences k l)%nat ↔ k ∈ l.
Proof.
  unfold occurrences. induction l as [|x l IH].
  - simpl. split; [lia|]. by intros ?%elem_of_nil.
  - rewrite elem_of_cons. destruct (decide (x = k)) as [->|Hne].
    + rewrite filter_cons_True by done. simpl. split; [by left|lia].
    + rewrite filter_cons_False by done. rewrite IH.
      split; [by right|]. by intros [->|?].
Qed.

Lemma two_fields_iff_tab (row : str) :
  (2 ≤ length (split tab row))%nat ↔ tab ∈ row.
Proof. rewrite length_split, <-occurrences_pos. lia. Qed.

(** X1: the fields joined into a row of an [InMemoryDataset] are recovered
    by [_split_row] when none of them contains a tab. *)
Theorem in_memory_row_fields (text_list label_list : list str)
    (args : list (list str)) (i : nat) (fields : list str) :
  mapM (λ c : list str, c !! i) (text_list :: label_list :: args)
    = Some fields →
  Forall (λ f, tab ∉ f) fields →
  ∃ row,
    InMemoryDataset.__getitem__
      (InMemoryDataset.__init__ text_list label_list args) (Z.of_nat i)
      = Ok row ∧
    NLPDataset._split_row row = fields ∧
    row_text row = default [] (text_list !! i) ∧
    row_label row = default [] (label_list !! i).
Proof.
  intros Hfields Hall.
  assert (Hrow : InMemoryDataset._record
                   (InMemoryDataset.__init__ text_list label_list args) !! i
                 = Some (join tab fields)).
  { unfold InMemoryDataset.__init__, InMemoryDataset._record.
    by rewrite list_lookup_fmap, lookup_zipn, Hfields. }
  assert (Hsplit : split tab (join tab fields) = fields).
  { apply split_join; [|done]. simpl in Hfields.
    destruct (text_list !! i); simpl in Hfields; [|done].
    destruct (label_list !! i); simpl in Hfields; [|done].
    destruct (mapM _ args); simpl in Hfields; [|done].
    by injection Hfields as <-. }
  exists (join tab fields). split_and!.
  - by apply list_getitem_nat.
  - done.
  - unfold row_text. rewrite Hsplit. simpl in Hfields.
    destruct (text_list !! i); simpl in Hfields; [|done].
    destruct (label_list !! i); simpl in Hfields; [|done].
    destruct (mapM _ args); simpl in Hfields; [|done].
    by injection Hfields as <-.
  - unfold row_label. rewrite Hsplit. simpl in Hfields.
    destruct (text_list !! i); simpl in Hfields; [|done].
    destruct (label_list !! i); simpl in Hfields; [|done].
    destruct (mapM _ args); simpl in Hfields; [|done].
    by injection Hfields as <-.
Qed.

Lemma in_memory_row_fields_witness :
  ∃ row,
    InMemoryDataset.__getitem__
      (InMemoryDataset.__init__ [s "ab"; s "c"] [s "1|2"; s "3"] []) 1
      = Ok row ∧
    NLPDataset._split_row row = [s "c"; s "3"].
Proof.
  destruct (in_memory_row_fields [s "ab"; s "c"] [s "1|2"; s "3"] [] 1
              [s "c"; s "3"]) as (row & Hrow & Hsplit & _).
  - done.
  - repeat constructor; by apply (bool_decide_unpack _).
  - by exists row.
Defined.

(** ** Construction *)

Lemma unpack2_Err (row : str) :
  tab ∉ row → SupervisedNLPDataset.unpack2 row = Err ValueError.
Proof.
  intros Hno. unfold SupervisedNLPDataset.unpack2, NLPDataset._split_row.
  by rewrite split_no_sep.
Qed.

Lemma scan_Err (build_vocab build_labels : bool) (segmenter : str → list str)
    (rows : list str) (st : SupervisedNLPDataset.counters) :
  Exists (λ row, tab ∉ row) rows →
  SupervisedNLPDataset.scan build_vocab build_labels segmenter rows st
    = Err ValueError.
Proof.
  intros Hex. revert st. induction rows as [|row rows IH]; intros st.
  - by apply Exists_nil in Hex.
  - simpl. destruct (decide (tab ∈ row)) as [Hin|Hnin].
    + apply Exists_cons in Hex as [Hbad|Hex]; [done|].
      unfold SupervisedNLPDataset.scan_row at 1.
      rewrite unpack2_total by (by apply two_fields_iff_tab). simpl.
      by apply IH.
    + unfold SupervisedNLPDataset.scan_row. by rewrite unpack2_Err.
Qed.

Lemma NLPDataset_scan_total (build_vocab : bool) (segmenter : str → list str)
    (rows : list str) (st : Counter str * list nat) :
  ∃ st', NLPDataset.scan build_vocab segmenter rows st = Ok st'.
Proof.
  revert st. induction rows as [|row rows IH]; intros st; [by eexists|].
  simpl. unfold NLPDataset.scan_row, NLPDataset._split_row.
  destruct (split tab row) as [|f fs] eqn:Hs; [by apply split_nonempty in Hs|].
  simpl. destruct build_vocab; apply IH.
Qed.

(** X2: [SupervisedNLPDataset] is constructed exactly when every row holds a
    tab; a row without tab makes the construction raise [ValueError]
    (unpacking one field into text and label), whatever is injected.
    [NLPDataset], which only reads the first field, is always
    constructed. *)
Theorem construction_needs_two_fields {Vocab : Type} `{!VocabOps Vocab}
    (dataset : list str) (vocab : option Vocab)
    (label2idx : option (dict str Z)) (segmenter : option (str → list str))
    (max_length : option Z) :
  (Forall (λ row, tab ∈ row) dataset →
     ∃ ds, SupervisedNLPDataset.__init__ dataset vocab label2idx segmenter
             max_length = Ok ds) ∧
  (Exists (λ row, tab ∉ row) dataset →
     SupervisedNLPDataset.__init__ dataset vocab label2idx segmenter
       max_length = Err ValueError) ∧
  (∃ ds, NLPDataset.__init__ dataset vocab segmenter max_length = Ok ds).
Proof.
  split_and!.
  - intros Hall. apply init_total.
    eapply Forall_impl; [done|]. intros row. by apply two_fields_iff_tab.
  - intros Hex. unfold SupervisedNLPDataset.__init__.
    by rewrite scan_Err.
  - unfold NLPDataset.__init__.
    edestruct (NLPDataset_scan_total (is_None vocab)
                 (default list_segmenter segmenter) dataset) as [st ->].
    by eexists.
Qed.

Lemma construction_needs_two_fields_witness :
  SupervisedNLPDataset.__init__ [s "ab"] (None : option (list str)) None None
    (Some 100) = Err ValueError ∧
  ∃ ds, SupervisedNLPDataset.__init__ (rows_of [s "ab"] [s "x"])
          (None : option (list str)) None None (Some 100) = Ok ds.
Proof.
  split.
  - apply (construction_needs_two_fields [s "ab"]). apply Exists_cons_hd.
    by apply (bool_decide_unpack _).
  - apply (construction_needs_two_fields (rows_of [s "ab"] [s "x"])).
    by apply (bool_decide_unpack _).
Defined.

(** ** The token counter *)

Section counter_facts.
Context {K : Type} `{EqDecision K}.

Lemma dict_get_set {V} (k k' : K) (v : V) (d : dict K V) :
  dict_get k (dict_set k' v d) =
    if decide (k' = k) then Some v else dict_get k d.
Proof.
  induction d as [|[k0 v0] d IH]; simpl.
  - done.
  - destruct (decide (k0 = k')) as [->|Hne]; simpl.
    + by destruct (decide (k' = k)).
    + rewrite IH. destruct (decide (k0 = k)) as [->|?]; [|done].
      by rewrite decide_False by done.
Qed.

Lemma Counter_update_get (ws : list K) (c : Counter K) (k : K) :
  dict_get k (Counter_update ws c) =
    match occurrences k ws with
    | O => dict_get k c
    | S n => Some (S n + default 0 (dict_get k c))%nat
    end.
Proof.
  unfold Counter_update, occurrences. revert c.
  induction ws as [|w ws IH]; intros c; [done|]. simpl. rewrite IH.
  rewrite dict_get_set. destruct (decide (w = k)) as [->|Hne].
  - rewrite filter_cons_True by done. simpl.
    destruct (length (filter _ ws)); simpl; f_equal; lia.
  - by rewrite filter_cons_False by done.
Qed.

End counter_facts.

(** X3: without an injected vocabulary, the counter given to [Vocab] maps
    every token of the segmented whole texts to the number of its
    occurrences in the corpus and holds no other key. *)
Theorem token_counter_counts {Vocab : Type} `{!VocabOps Vocab}
    (dataset : list str) (label2idx : option (dict str Z))
    (segmenter : option (str → list str)) (max_length : option Z)
    (ds : SupervisedNLPDataset.t Vocab) :
  SupervisedNLPDataset.__init__ dataset None label2idx segmenter max_length
    = Ok ds →
  ∃ token_counter : Counter str,
    NLPDataset._vocab (SupervisedNLPDataset.base ds) = Vocab_new token_counter ∧
    ∀ tok,
      dict_get tok token_counter =
        match occurrences tok
                (corpus_tokens (default list_segmenter segmenter) id dataset)
        with
        | O => None
        | S n => Some (S n)
        end.
Proof.
  intros (st & Hscan & _ & _ & _ & _ & Hvocab & _)%init_Ok.
  apply scan_Ok in Hscan as (_ & Htc & _). simpl in *.
  exists (SupervisedNLPDataset.token_counter st). split; [done|].
  intros tok. rewrite Htc, Counter_update_get. simpl.
  destruct (occurrences _ _); [done|]. f_equal. lia.
Qed.

Lemma token_counter_counts_witness :
  ∃ ds, SupervisedNLPDataset.__init__ (rows_of [s "aba"; s "ca"] [s "x"; s "y"])
          (None : option (list str)) None None (Some 2) = Ok ds ∧
        ∃ token_counter,
          NLPDataset._vocab (SupervisedNLPDataset.base ds)
            = Vocab_new token_counter ∧
          dict_get (s "a") token_counter = Some 3%nat.
Proof.
  eexists. split; [vm_compute; reflexivity|].
  edestruct (token_counter_counts
               (rows_of [s "aba"; s "ca"] [s "x"; s "y"]) None None (Some 2))
    as (tc & Hv & Hcount); [vm_compute; reflexivity|].
  exists tc. split; [exact Hv|]. rewrite Hcount. vm_compute. reflexivity.
Defined.

(** ** Encoding the rows of a dataset with its own label index *)

Section built_index_facts.
Context {Vocab : Type} `{!VocabOps Vocab}.

(** The label index built from a corpus, seen through its lookups. *)
Lemma built_index_lookup (dataset : list str) (vocab : option Vocab)
    (segmenter : option (str → list str)) (max_length : option Z)
    (ds : SupervisedNLPDataset.t Vocab) :
  SupervisedNLPDataset.__init__ dataset vocab None segmenter max_length
    = Ok ds →
  let index := SupervisedNLPDataset._label2idx ds in
  let inverse := SupervisedNLPDataset._idx2label ds in
  (∀ l, is_Some (dict_get l index) ↔ l ≠ [] ∧ l ∈ corpus_labels dataset) ∧
  (∀ l i, dict_get l index = Some i → 0 ≤ i < Z.of_nat (length index)) ∧
  (∀ l i, dict_get i inverse = Some l ↔ dict_get l index = Some i) ∧
  (∀ i, 0 ≤ i < Z.of_nat (length index) → is_Some (dict_get i inverse)).
Proof.
  intros (labels & _ & Hnd & Hmem & Hl2i & Hi2l)%built_label_index.
  intros index inverse. unfold index, inverse. rewrite Hl2i, Hi2l.
  set (ids := Z.of_nat <$> seq 0 (length labels)).
  assert (Hlen : length ids = length labels).
  { unfold ids. by rewrite length_fmap, length_seq. }
  assert (Hk1 : NoDup (dict_keys (zip labels ids))).
  { unfold dict_keys. by rewrite fst_zip by (by rewrite Hlen). }
  assert (Hk2 : NoDup (dict_keys (zip ids labels))).
  { unfold dict_keys. rewrite fst_zip by (by rewrite Hlen). apply NoDup_ids. }
  assert (Hsize : length (zip labels ids) = length labels).
  { rewrite length_zip. lia. }
  assert (Hinv : ∀ l i, dict_get i (zip ids labels) = Some l ↔
                        dict_get l (zip labels ids) = Some i).
  { intros l i.
    split; intros Hget%dict_get_Some_elem; apply dict_get_elem; try done;
      by apply elem_of_zip_swap. }
  assert (Hrange : ∀ l i, dict_get l (zip labels ids) = Some i →
                          0 ≤ i < Z.of_nat (length labels)).
  { intros l i Hget%dict_get_Some_elem%elem_of_zip_r.
    apply list_elem_of_fmap in Hget as (n & -> & Hn%elem_of_seq). lia. }
  split_and!.
  - intros l. rewrite <-Hmem, <-not_eq_None_Some, dict_get_None.
    unfold dict_keys. rewrite fst_zip by (by rewrite Hlen).
    split; [|tauto]. intros Hnn. by destruct (decide (l ∈ labels)).
  - intros l i Hget. rewrite Hsize. by eapply Hrange.
  - done.
  - intros i Hi. rewrite Hsize in Hi.
    rewrite <-not_eq_None_Some, dict_get_None. unfold dict_keys.
    rewrite fst_zip by (by rewrite Hlen). intros Hnin. apply Hnin.
    apply list_elem_of_fmap. exists (Z.to_nat i). split; [lia|].
    apply elem_of_seq. lia.
Qed.

End built_index_facts.

(** X4: a [SupervisedNLPDataset] with a label index built from its own
    corpus encodes each of its rows, with one id in [0..K-1] per label
    component, unless a component of the row's label field is empty: such a
    row raises [KeyError('')]. *)
Theorem rows_encode_unless_empty_component {Vocab : Type} `{!VocabOps Vocab}
    (dataset : list str) (vocab : option Vocab)
    (segmenter : option (str → list str)) (max_length : option Z)
    (ds : SupervisedNLPDataset.t Vocab) (i : nat) (row : str) :
  SupervisedNLPDataset.__init__ dataset vocab None segmenter max_length
    = Ok ds →
  dataset !! i = Some row →
  let components := split pipe (row_label row) in
  let item := SupervisedNLPDataset.__getitem__
                (SupervisedNLPDataset.preprocess_label ds) ds (Z.of_nat i) in
  ([] ∈ components → item = Err (KeyError [])) ∧
  ([] ∉ components →
     ∃ ids, item = Ok (NLPDataset.preprocess_text
                         (SupervisedNLPDataset.base ds) (row_text row), ids) ∧
            length ids = length components ∧
            Forall (λ id, 0 ≤ id <
                          Z.of_nat (length (SupervisedNLPDataset._label2idx ds)))
                   ids).
Proof.
  intros Hinit Hrow components item.
  destruct (built_index_lookup _ _ _ _ _ Hinit) as (Hknown & Hrange & _ & _).
  apply init_Ok in Hinit as (st & Hscan & Hdata & _).
  apply scan_Ok in Hscan as (Hfields & _).
  rewrite Forall_forall in Hfields.
  assert (Hin : row ∈ dataset) by (apply list_elem_of_lookup; eauto).
  pose proof (unpack2_total _ (Hfields _ Hin)) as Hu.
  apply unpack2_Ok in Hu as [rest Hsplit].
  assert (Hitem : item =
            (processed_label ←
               SupervisedNLPDataset.preprocess_label ds (row_label row);
             Ok (NLPDataset.preprocess_text (SupervisedNLPDataset.base ds)
                   (row_text row), processed_label))).
  { unfold item, SupervisedNLPDataset.__getitem__. rewrite Hdata.
    rewrite (list_getitem_nat _ _ _ Hrow). simpl.
    unfold NLPDataset._split_row. by rewrite Hsplit. }
  assert (Hcorpus : ∀ l, l ∈ components → l ∈ corpus_labels dataset).
  { intros l Hl. unfold corpus_labels. apply list_elem_of_bind.
    by exists row. }
  rewrite Hitem. unfold SupervisedNLPDataset.preprocess_label.
  fold components. split.
  - intros Hempty.
    destruct (lookup_all_unknown ds components) as (k & Hk & Hnone & ->).
    { exists []. split; [done|]. apply eq_None_not_Some.
      intros [Hne _]%Hknown. by apply Hne. }
    simpl. do 2 f_equal. destruct (decide (k = [])) as [->|Hne]; [done|].
    assert (Hsome : is_Some (dict_get k (SupervisedNLPDataset._label2idx ds))).
    { apply Hknown. split; [done|]. by apply Hcorpus. }
    rewrite Hnone in Hsome. by destruct Hsome.
  - intros Hnonempty.
    destruct (rmap (SupervisedNLPDataset.label_id ds) components)
      as [ids|e] eqn:Hids.
    + exists ids. split_and!; [done| |].
      * apply rmap_Ok in Hids. symmetry. by eapply Forall2_length.
      * apply rmap_Ok in Hids. apply Forall_forall. intros id Hid.
        apply list_elem_of_lookup in Hid as [n Hn].
        destruct (Forall2_lookup_r _ _ _ _ _ Hids Hn) as (l & _ & Hl).
        apply label_id_Ok in Hl. by eapply Hrange.
    + destruct (rmap_total (SupervisedNLPDataset.label_id ds) components)
        as [ids Hok]; [|congruence].
      intros l Hl.
      destruct (proj2 (Hknown l)) as [id Hid].
      { split; [by intros ->|by apply Hcorpus]. }
      exists id. by apply label_id_Ok.
Qed.

Lemma rows_encode_unless_empty_component_witness :
  ∃ ds, SupervisedNLPDataset.__init__
          (rows_of [s "ab"; s "c"] [s "y|x"; s "x||y"])
          (None : option (list str)) None None (Some 100) = Ok ds ∧
        SupervisedNLPDataset.__getitem__
          (SupervisedNLPDataset.preprocess_label ds) ds 1 = Err (KeyError []) ∧
        ∃ text ids,
          SupervisedNLPDataset.__getitem__
            (SupervisedNLPDataset.preprocess_label ds) ds 0 = Ok (text, ids) ∧
          length ids = 2%nat.
Proof.
  eexists. split; [vm_compute; reflexivity|].
  match goal with
  | |- context [SupervisedNLPDataset.preprocess_label ?d] => set (ds := d)
  end.
  assert (Hinit : SupervisedNLPDataset.__init__
                    (rows_of [s "ab"; s "c"] [s "y|x"; s "x||y"])
                    (None : option (list str)) None None (Some 100) = Ok ds)
    by (vm_compute; reflexivity).
  split.
  - apply (rows_encode_unless_empty_component _ _ _ _ ds 1%nat
             (s "c" ++ tab :: s "x||y") Hinit); [done|].
    by apply (bool_decide_unpack _).
  - destruct (rows_encode_unless_empty_component _ _ _ _ ds 0%nat
                (s "ab" ++ tab :: s "y|x") Hinit eq_refl) as [_ Hok].
    destruct Hok as (ids & Hitem & Hlen & _).
    { by apply (bool_decide_unpack _). }
    by eexists _, ids.
Defined.

(** ** Decoding label ids *)

(** X5: with a label index built from the corpus, decoding the ids that
    [SequenceTagDataset.preprocess_label] returns for a label string gives
    back its components, cut to [max_length]. *)
Theorem sequence_tag_round_trip {Vocab : Type} `{!VocabOps Vocab}
    (dataset : list str) (vocab : option Vocab)
    (segmenter : option (str → list str)) (max_length : option Z)
    (ds : SequenceTagDataset.t Vocab) (label : str) (ids : list Z) :
  SequenceTagDataset.__init__ dataset vocab None segmenter max_length
    = Ok ds →
  SequenceTagDataset.preprocess_label ds label = Ok ids →
  SequenceTagDataset.idx2labels ds ids
    = slice_to max_length (split pipe label).
Proof.
  intros Hinit Hids.
  destruct (built_index_lookup _ _ _ _ _ Hinit) as (_ & _ & Hinv & _).
  apply init_Ok in Hinit as (_ & _ & _ & _ & Hml & _).
  unfold SequenceTagDataset.preprocess_label in Hids. rewrite Hml in Hids.
  apply rmap_Ok in Hids. unfold SequenceTagDataset.idx2labels.
  induction Hids as [|l id kept ids Hl _ IH]; [done|].
  rewrite map_cons, IH. f_equal.
  apply label_id_Ok, Hinv in Hl. by rewrite Hl.
Qed.

Lemma sequence_tag_round_trip_witness :
  ∃ ds ids,
    SequenceTagDataset.__init__ (Vocab := list str)
      (rows_of [s "abc"; s "de"] [s "B|I|O"; s "O|B"]) None None None (Some 2)
      = Ok ds ∧
    SequenceTagDataset.preprocess_label ds (s "I|B|O") = Ok ids ∧
    SequenceTagDataset.idx2labels ds ids = [s "I"; s "B"].
Proof.
  eexists. exists [1; 0]. split; [vm_compute; reflexivity|].
  match goal with
  | |- context [SequenceTagDataset.preprocess_label ?d _] => set (ds := d)
  end.
  assert (Hinit : SequenceTagDataset.__init__ (Vocab := list str)
                    (rows_of [s "abc"; s "de"] [s "B|I|O"; s "O|B"])
                    None None None (Some 2) = Ok ds)
    by (vm_compute; reflexivity).
  assert (Hids : SequenceTagDataset.preprocess_label ds (s "I|B|O")
                 = Ok [1; 0]) by (vm_compute; reflexivity).
  split; [exact Hids|].
  etrans; [exact (sequence_tag_round_trip _ _ _ _ ds _ _ Hinit Hids)|].
  vm_compute. reflexivity.
Defined.

(** X6: [SequenceTagDataset.idx2labels] never fails and keeps the length of
    its input; with a label index built from the corpus, an id in [0..K-1]
    is decoded to the label that has it and every other id to ["O"]. *)
Theorem sequence_tag_decode {Vocab : Type} `{!VocabOps Vocab}
    (dataset : list str) (vocab : option Vocab)
    (segmenter : option (str → list str)) (max_length : option Z)
    (ds : SequenceTagDataset.t Vocab) (idx_list : list Z) :
  SequenceTagDataset.__init__ dataset vocab None segmenter max_length
    = Ok ds →
  let index := SupervisedNLPDataset._label2idx ds in
  let decoded := SequenceTagDataset.idx2labels ds idx_list in
  length decoded = length idx_list ∧
  ∀ (n : nat) (i : Z),
    idx_list !! n = Some i →
    (0 ≤ i < Z.of_nat (length index) →
       ∃ l, decoded !! n = Some l ∧ dict_get l index = Some i) ∧
    (¬ (0 ≤ i < Z.of_nat (length index)) → decoded !! n = Some (s "O")).
Proof.
  intros Hinit index decoded.
  destruct (built_index_lookup _ _ _ _ _ Hinit) as (_ & Hrange & Hinv & Hsome).
  unfold decoded, SequenceTagDataset.idx2labels. split.
  - by rewrite length_map.
  - intros n i Hn. rewrite list_lookup_fmap, Hn. simpl. split.
    + intros Hi. destruct (Hsome i Hi) as [l Hl]. exists l.
      rewrite Hl. split; [done|]. by apply Hinv.
    + intros Hi.
      destruct (dict_get i (SupervisedNLPDataset._idx2label ds))
        as [l|] eqn:Hl; [|done].
      apply Hinv, Hrange in Hl. done.
Qed.

Lemma sequence_tag_decode_witness :
  ∃ ds,
    SequenceTagDataset.__init__ (Vocab := list str)
      (rows_of [s "abc"; s "de"] [s "B|I|O"; s "O|B"]) None None None (Some 2)
      = Ok ds ∧
    SequenceTagDataset.idx2labels ds [7; 1; -1] !! 0%nat = Some (s "O").
Proof.
  eexists. split; [vm_compute; reflexivity|].
  match goal with
  | |- context [SequenceTagDataset.idx2labels ?d _] => set (ds := d)
  end.
  assert (Hinit : SequenceTagDataset.__init__ (Vocab := list str)
                    (rows_of [s "abc"; s "de"] [s "B|I|O"; s "O|B"])
                    None None None (Some 2) = Ok ds)
    by (vm_compute; reflexivity).
  destruct (sequence_tag_decode _ _ _ _ ds [7; 1; -1] Hinit) as [_ Hdec].
  apply (Hdec 0%nat 7 eq_refl). vm_compute. intros [_ H]. discriminate H.
Defined.

Lemma omap_filter_Some {A B} (f : A → option B) (P : A → Prop)
    `{∀ x, Decision (P x)} (l : list A) :
  (∀ x, is_Some (f x) ↔ P x) →
  omap f l = omap f (filter P l) ∧
  length (omap f l) = length (filter P l).
Proof.
  intros HP. induction l as [|x l [IH1 IH2]]; [done|].
  assert (Hcons : ∀ k, omap f (x :: k) =
            match f x with Some y => y :: omap f k | None => omap f k end)
    by done.
  destruct (decide (P x)) as [Hx|Hx].
  - rewrite filter_cons_True by done. rewrite !Hcons.
    destruct (proj2 (HP x) Hx) as [y ->].
    split; [by f_equal|]. simpl. by rewrite IH2.
  - rewrite filter_cons_False by done. rewrite Hcons.
    destruct (f x) as [y|] eqn:Hfx; [|done].
    destruct Hx. apply HP. by rewrite Hfx.
Qed.

Lemma omap_Forall2 {A B} (f : A → option B) (l : list A) (k : list B) :
  Forall2 (λ x y, f x = Some y) l k → omap f l = k.
Proof.
  induction 1 as [|x y l k Hxy _ IH]; [done|].
  change (omap f (x :: l))
    with (match f x with Some y => y :: omap f l | None => omap f l end).
  by rewrite Hxy, IH.
Qed.

(** The ids that [_idx2label] decodes, when the class list of a
    [ClassifyDataset] could be built: exactly [0..K-1], id [n] giving class
    number [n]. *)
Lemma classes_decode (d : dict str Z) (cls : list str) :
  NoDup (dict_keys d) →
  rmap (ClassifyDataset.label_of_id (SupervisedNLPDataset.invert d))
       (range 0 (Z.of_nat (length d))) = Ok cls →
  (∀ n : nat, (n < length d)%nat →
     ∃ c, cls !! n = Some c ∧
          dict_get (Z.of_nat n) (SupervisedNLPDataset.invert d) = Some c) ∧
  (∀ i, is_Some (dict_get i (SupervisedNLPDataset.invert d)) ↔
        0 ≤ i < Z.of_nat (length d)) ∧
  omap (λ i, dict_get i (SupervisedNLPDataset.invert d))
       (range 0 (Z.of_nat (length d))) = cls.
Proof.
  intros Hnd Hcls.
  destruct (classes_spec d cls Hnd Hcls) as (Hlen & Hndc & Hget & Hfind).
  assert (Hall : omap (λ i, dict_get i (SupervisedNLPDataset.invert d))
                   (range 0 (Z.of_nat (length d))) = cls).
  { apply omap_Forall2. apply rmap_Ok in Hcls.
    eapply Forall2_impl; [done|]. intros i c. simpl.
    unfold ClassifyDataset.label_of_id.
    destruct (dict_get i _); [by intros [= ->]|done]. }
  rewrite range_0 in Hcls. apply rmap_Ok, Forall2_fmap_l in Hcls.
  assert (Hfwd : ∀ n : nat, (n < length d)%nat →
            ∃ c, cls !! n = Some c ∧
                 dict_get (Z.of_nat n) (SupervisedNLPDataset.invert d)
                   = Some c).
  { intros n Hn.
    destruct (Forall2_lookup_l _ _ _ n n Hcls) as (c & Hc & Hid).
    { apply lookup_seq. lia. }
    exists c. split; [done|]. simpl in Hid.
    unfold ClassifyDataset.label_of_id in Hid.
    destruct (dict_get (Z.of_nat n) _); [by injection Hid as ->|done]. }
  split_and!; [done| |done]. intros i. split.
  - intros [c Hc]. apply dict_get_invert_elem in Hc.
    pose proof (dict_get_elem _ _ _ Hnd Hc) as Hci.
    assert (Hperm : cls ≡ₚ dict_keys d).
    { apply submseteq_length_Permutation.
      - apply NoDup_submseteq; [done|]. intros c' [j Hj]%list_elem_of_lookup.
        apply Hget, dict_get_Some_elem in Hj.
        apply list_elem_of_fmap. by exists (c', Z.of_nat j).
      - unfold dict_keys. by rewrite length_fmap, Hlen. }
    assert (Hin : c ∈ cls).
    { rewrite Hperm. apply list_elem_of_fmap. by exists (c, i). }
    apply list_elem_of_lookup in Hin as [n Hn].
    pose proof (lookup_lt_Some _ _ _ Hn) as Hlt.
    apply Hget in Hn. rewrite Hci in Hn. injection Hn as ->. lia.
  - intros Hi. destruct (Hfwd (Z.to_nat i)) as (c & _ & Hc); [lia|].
    exists c. by rewrite Z2Nat.id in Hc by lia.
Qed.

(** X7: for a [ClassifyDataset] over [K] indexed labels, [idx2labels]
    decodes [range(K)] to the class list of the binarizer, drops every id
    outside [0..K-1] and keeps one label per id inside; the label it gives
    for [n] is the one whose presence in a label string sets entry [n] of
    the vector [preprocess_label] returns. *)
Theorem classify_decode {Vocab : Type} `{!VocabOps Vocab}
    (dataset : list str) (vocab : option Vocab)
    (label2idx : option (dict str Z)) (segmenter : option (str → list str))
    (max_length : option Z) (cds : ClassifyDataset.t Vocab) :
  (∀ d, label2idx = Some d → NoDup (dict_keys d)) →
  ClassifyDataset.__init__ dataset vocab label2idx segmenter max_length
    = Ok cds →
  let K := length (SupervisedNLPDataset._label2idx (ClassifyDataset.super cds)) in
  ClassifyDataset.idx2labels cds (range 0 (Z.of_nat K)) =
    MultiLabelBinarizer.classes (ClassifyDataset._binarizer cds) ∧
  (∀ idx_list,
     ClassifyDataset.idx2labels cds idx_list =
       ClassifyDataset.idx2labels cds
         (filter (λ i, 0 ≤ i < Z.of_nat K) idx_list) ∧
     length (ClassifyDataset.idx2labels cds idx_list) =
       length (filter (λ i, 0 ≤ i < Z.of_nat K) idx_list)) ∧
  (∀ n : nat, (n < K)%nat →
     ∃ c, ClassifyDataset.idx2labels cds [Z.of_nat n] = [c] ∧
          ∀ label v,
            ClassifyDataset.preprocess_label cds label = Ok v →
            (v !! n = Some 1 ↔ c ∈ split pipe label)).
Proof.
  intros Hinj Hinit K.
  destruct (classify_classes _ _ _ _ _ _ Hinj Hinit) as (Hlen & Hndc & _ & _).
  apply classify_init_Ok in Hinit as [Hsup Hcls].
  pose proof (init_label2idx_NoDup _ _ _ _ _ _ Hinj Hsup) as Hnd.
  apply init_Ok in Hsup as (_ & _ & _ & _ & _ & _ & _ & _ & Hi2l).
  rewrite Hi2l in Hcls.
  destruct (classes_decode _ _ Hnd Hcls) as (Hfwd & Hdom & Hall).
  unfold ClassifyDataset.idx2labels. rewrite Hi2l. fold K in Hfwd, Hdom, Hall.
  split_and!.
  - done.
  - intros idx_list. by apply omap_filter_Some.
  - intros n Hn. destruct (Hfwd n Hn) as (c & Hcn & Hc).
    exists c. simpl. rewrite Hc. split; [done|].
    intros label v Hv. rewrite classify_preprocess_label in Hv by done.
    injection Hv as <-. rewrite transform_row_lookup, Hcn. simpl.
    destruct (decide (c ∈ split pipe label)); [done|].
    split; [done|tauto].
Qed.

Lemma classify_decode_witness :
  ∃ cds,
    ClassifyDataset.__init__
      (rows_of [s "abc"; s "abd"; s "dxy"] [s "1|2"; s "1|2|3"; s "3|1"])
      (None : option (list str)) None None (Some 100) = Ok cds ∧
    ClassifyDataset.idx2labels cds [5; 2; -1; 0] = [s "3"; s "1"] ∧
    ClassifyDataset.idx2labels cds [0; 1; 2] = [s "1"; s "2"; s "3"].
Proof.
  eexists. split; [vm_compute; reflexivity|].
  match goal with
  | |- context [ClassifyDataset.idx2labels ?c _] => set (cds := c)
  end.
  assert (Hinit : ClassifyDataset.__init__
                    (rows_of [s "abc"; s "abd"; s "dxy"]
                             [s "1|2"; s "1|2|3"; s "3|1"])
                    (None : option (list str)) None None (Some 100) = Ok cds)
    by (vm_compute; reflexivity).
  assert (Hinj : ∀ d : dict str Z, None = Some d → NoDup (dict_keys d))
    by done.
  destruct (classify_decode _ _ _ _ _ _ Hinj Hinit) as (Hall & Hdrop & _).
  split.
  - destruct (Hdrop [5; 2; -1; 0]) as [-> _]. vm_compute. reflexivity.
  - etrans; [exact Hall|]. vm_compute. reflexivity.
Defined.

(** ** Reusing a vocabulary and a label index *)

(** X8: a dataset constructed with the vocabulary and the label index of
    another one holds the same vocabulary, label index and inverse index,
    records no text length of its own, and encodes every label string as
    the first one does. *)
Theorem injected_index_reused {Vocab : Type} `{!VocabOps Vocab}
    (dataset_a dataset_b : list str) (vocab_a : option Vocab)
    (label2idx_a : option (dict str Z))
    (segmenter_a segmenter_b : option (str → list str))
    (max_length_a max_length_b : option Z)
    (ds_a ds_b : SupervisedNLPDataset.t Vocab) :
  SupervisedNLPDataset.__init__ dataset_a vocab_a label2idx_a segmenter_a
    max_length_a = Ok ds_a →
  SupervisedNLPDataset.__init__ dataset_b
    (Some (NLPDataset._vocab (SupervisedNLPDataset.base ds_a)))
    (Some (SupervisedNLPDataset._label2idx ds_a)) segmenter_b max_length_b
    = Ok ds_b →
  NLPDataset._vocab (SupervisedNLPDataset.base ds_b) =
    NLPDataset._vocab (SupervisedNLPDataset.base ds_a) ∧
  SupervisedNLPDataset._label2idx ds_b = SupervisedNLPDataset._label2idx ds_a ∧
  SupervisedNLPDataset._idx2label ds_b = SupervisedNLPDataset._idx2label ds_a ∧
  NLPDataset._text_lengths (SupervisedNLPDataset.base ds_b) = [] ∧
  (∀ label, SupervisedNLPDataset.preprocess_label ds_b label =
            SupervisedNLPDataset.preprocess_label ds_a label) ∧
  (∀ label, max_length_b = max_length_a →
            SequenceTagDataset.preprocess_label ds_b label =
            SequenceTagDataset.preprocess_label ds_a label).
Proof.
  intros (sta & _ & _ & _ & Hmla & _ & _ & _ & Hia)%init_Ok.
  intros (stb & Hscan & _ & _ & Hmlb & Hlen & Hvb & Hlb & Hib)%init_Ok.
  apply scan_Ok in Hscan as (_ & _ & _ & Hlens). simpl in *.
  assert (Hid : SupervisedNLPDataset.label_id ds_b =
                SupervisedNLPDataset.label_id ds_a).
  { unfold SupervisedNLPDataset.label_id. by rewrite Hlb. }
  split_and!; try done.
  - by rewrite Hib, Hia, Hlb.
  - by rewrite Hlen, Hlens.
  - intros label. unfold SupervisedNLPDataset.preprocess_label. by rewrite Hid.
  - intros label Hml. unfold SequenceTagDataset.preprocess_label.
    by rewrite Hid, Hmlb, Hmla, Hml.
Qed.

Lemma injected_index_reused_witness :
  ∃ ds_a ds_b,
    SupervisedNLPDataset.__init__ (rows_of [s "ab"; s "c"] [s "y|x"; s "x"])
      (None : option (list str)) None None (Some 100) = Ok ds_a ∧
    SupervisedNLPDataset.__init__ (rows_of [s "zz"] [s "q"])
      (Some (NLPDataset._vocab (SupervisedNLPDataset.base ds_a)))
      (Some (SupervisedNLPDataset._label2idx ds_a)) None (Some 100) = Ok ds_b ∧
    SupervisedNLPDataset._label2idx ds_b = [(s "x", 0); (s "y", 1)].
Proof.
  do 2 eexists. split; [vm_compute; reflexivity|].
  split; [vm_compute; reflexivity|].
  match goal with
  | |- SupervisedNLPDataset._label2idx ?b = _ => set (ds_b := b)
  end.
  let r := eval vm_compute in
             (SupervisedNLPDataset.__init__
                (rows_of [s "ab"; s "c"] [s "y|x"; s "x"])
                (None : option (list str)) None None (Some 100)) in
  match r with Ok ?a => pose (ds_a := a) end.
  assert (Ha : SupervisedNLPDataset.__init__
                 (rows_of [s "ab"; s "c"] [s "y|x"; s "x"])
                 (None : option (list str)) None None (Some 100) = Ok ds_a)
    by (vm_compute; reflexivity).
  assert (Hb : SupervisedNLPDataset.__init__ (rows_of [s "zz"] [s "q"])
                 (Some (NLPDataset._vocab (SupervisedNLPDataset.base ds_a)))
                 (Some (SupervisedNLPDataset._label2idx ds_a)) None (Some 100)
               = Ok ds_b)
    by (vm_compute; reflexivity).
  destruct (injected_index_reused _ _ _ _ _ _ _ _ _ _ Ha Hb) as (_ & Hl & _).
  rewrite Hl. vm_compute. reflexivity.
Defined.

(** ** Item access and text lengths of NLPDataset *)

Lemma list_getitem_out {A} (l : list A) (idx : Z) :
  idx < - Z.of_nat (length l) ∨ Z.of_nat (length l) ≤ idx →
  list_getitem l idx = Err IndexError.
Proof.
  intros Hout. unfold list_getitem. cbv zeta.
  destruct (decide (idx < 0)); destruct (decide _); try done; lia.
Qed.

Lemma list_getitem_negative {A} (l : list A) (idx : Z) :
  idx < 0 → - Z.of_nat (length l) ≤ idx →
  list_getitem l idx = list_getitem l (Z.of_nat (length l) + idx).
Proof.
  intros Hneg Hin. unfold list_getitem. cbv zeta.
  rewrite (decide_True (P := idx < 0)) by done.
  by rewrite (decide_False (P := Z.of_nat (length l) + idx < 0)) by lia.
Qed.

Lemma list_getitem_in {A} (l : list A) (idx : Z) :
  0 ≤ idx < Z.of_nat (length l) →
  ∃ x, l !! Z.to_nat idx = Some x ∧ list_getitem l idx = Ok x.
Proof.
  intros Hin. destruct (lookup_lt_is_Some_2 l (Z.to_nat idx)) as [x Hx]; [lia|].
  exists x. split; [done|]. rewrite <-(Z2Nat.id idx) by lia.
  by apply list_getitem_nat.
Qed.

Lemma NLPDataset_row_item {Vocab : Type} `{!VocabOps Vocab}
    (self : NLPDataset.t Vocab) (row : str) :
  NLPDataset.preprocess_func self (NLPDataset._split_row row) =
    Ok (NLPDataset.preprocess_text self (row_text row)).
Proof.
  unfold NLPDataset.preprocess_func, NLPDataset._split_row, row_text.
  destruct (split tab row) as [|f fs] eqn:Hs; [by apply split_nonempty in Hs|].
  done.
Qed.

(** X9: [NLPDataset.__getitem__] follows Python's list indexing on the row
    source: an index below [-len] or from [len] on raises [IndexError], a
    negative index [-k] addresses the item [len - k], and every index in
    range yields the encoded first field of its row, without error. *)
Theorem nlp_dataset_getitem_bounds {Vocab : Type} `{!VocabOps Vocab}
    (self : NLPDataset.t Vocab) (idx : Z) :
  let n := NLPDataset.__len__ self in
  (idx < - n ∨ n ≤ idx → NLPDataset.__getitem__ self idx = Err IndexError) ∧
  (- n ≤ idx < 0 →
     NLPDataset.__getitem__ self idx = NLPDataset.__getitem__ self (n + idx)) ∧
  (0 ≤ idx < n →
     ∃ row, NLPDataset._dataset self !! Z.to_nat idx = Some row ∧
            NLPDataset.__getitem__ self idx =
              Ok (NLPDataset.preprocess_text self (row_text row))).
Proof.
  intros n. unfold n, NLPDataset.__len__, NLPDataset.__getitem__.
  split_and!.
  - intros Hout. by rewrite list_getitem_out.
  - intros [Hlo Hneg]. by rewrite list_getitem_negative.
  - intros Hin. destruct (list_getitem_in _ _ Hin) as (row & Hrow & ->).
    exists row. split; [done|]. apply NLPDataset_row_item.
Qed.

Lemma nlp_dataset_getitem_bounds_witness :
  ∃ self,
    NLPDataset.__init__ (rows_of [s "ab"; s "ba"] [s "x"; s "y"])
      (None : option (list str)) None (Some 100) = Ok self ∧
    NLPDataset.__getitem__ self (-1) = Ok [2; 1] ∧
    NLPDataset.__getitem__ self 2 = Err IndexError.
Proof.
  eexists. split; [vm_compute; reflexivity|].
  match goal with
  | |- context [NLPDataset.__getitem__ ?d _] => set (self := d)
  end.
  destruct (nlp_dataset_getitem_bounds self (-1)) as (_ & Hneg & _).
  destruct (nlp_dataset_getitem_bounds self 2) as (Hout & _ & _).
  split.
  - etrans; [apply Hneg; unfold NLPDataset.__len__; simpl; lia|].
    vm_compute. reflexivity.
  - apply Hout. right. unfold NLPDataset.__len__. simpl. lia.
Defined.

Lemma NLPDataset_scan_Ok (build_vocab : bool) (segmenter : str → list str)
    (rows : list str) (st st' : Counter str * list nat) :
  NLPDataset.scan build_vocab segmenter rows st = Ok st' →
  st'.2 = if build_vocab
          then st.2 ++ ((λ row, length (segmenter (row_text row))) <$> rows)
          else st.2.
Proof.
  revert st. induction rows as [|row rows IH]; intros st; simpl.
  - intros [= <-]. destruct build_vocab; [by rewrite app_nil_r|done].
  - unfold NLPDataset.scan_row at 1, NLPDataset._split_row, row_text.
    destruct (split tab row) as [|f fs] eqn:Hs;
      [by apply split_nonempty in Hs|].
    simpl. destruct build_vocab; intros ->%IH; simpl; [|done].
    by rewrite <-app_assoc.
Qed.

(** X10: the [text_lengths] of an [NLPDataset] are, when its vocabulary was
    built from the corpus, the token counts of the whole texts recorded at
    construction, and, when the vocabulary was injected, the lengths of the
    encoded items, whose texts are cut to [max_length]; in neither case does
    the property fail. *)
Theorem nlp_dataset_text_lengths {Vocab : Type} `{!VocabOps Vocab}
    (dataset : list str) (vocab : option Vocab)
    (segmenter : option (str → list str)) (max_length : option Z)
    (self : NLPDataset.t Vocab) :
  NLPDataset.__init__ dataset vocab segmenter max_length = Ok self →
  NLPDataset.text_lengths self =
    Ok (match vocab with
        | None =>
            (λ row, length (default list_segmenter segmenter (row_text row)))
              <$> dataset
        | Some _ =>
            (λ row, length (NLPDataset.preprocess_text self (row_text row)))
              <$> dataset
        end).
Proof.
  unfold NLPDataset.__init__. intros (st & Hscan & [= <-])%bind_Ok.
  apply NLPDataset_scan_Ok in Hscan. simpl in Hscan.
  unfold NLPDataset.text_lengths. cbn [NLPDataset._text_lengths
    NLPDataset._dataset]. rewrite Hscan.
  destruct vocab as [v|]; simpl.
  - destruct (decide _) as [Hne|He].
    2:{ destruct dataset; [done|]. simpl in He. by destruct He. }
    apply rmap_Ok. unfold NLPDataset.__len__. simpl. rewrite range_0.
    apply Forall2_fmap_l, Forall2_fmap_r.
    apply Forall2_same_length_lookup_2; [by rewrite length_seq|].
    intros i n row [-> Hi]%lookup_seq Hrow. simpl.
    unfold NLPDataset.__getitem__. simpl.
    rewrite (list_getitem_nat _ _ _ Hrow). simpl.
    by rewrite NLPDataset_row_item.
  - rewrite decide_False; [done|]. rewrite length_fmap. by intros ?.
Qed.

Lemma nlp_dataset_text_lengths_witness :
  ∃ built injected,
    NLPDataset.__init__ (rows_of [s "abc"] [s "x"])
      (None : option (list str)) None (Some 2) = Ok built ∧
    NLPDataset.__init__ (rows_of [s "abc"] [s "x"])
      (Some (NLPDataset._vocab built)) None (Some 2) = Ok injected ∧
    NLPDataset.text_lengths built = Ok [3%nat] ∧
    NLPDataset.text_lengths injected = Ok [2%nat].
Proof.
  do 2 eexists. split; [vm_compute; reflexivity|].
  split; [vm_compute; reflexivity|]. split.
  - erewrite (nlp_dataset_text_lengths (rows_of [s "abc"] [s "x"])
                (None : option (list str)) None (Some 2));
      [vm_compute; reflexivity|vm_compute; reflexivity].
  - erewrite (nlp_dataset_text_lengths (rows_of [s "abc"] [s "x"])
                (Some [s "a"; s "b"; s "c"]) None (Some 2));
      [vm_compute; reflexivity|vm_compute; reflexivity].
Defined.

(** ** Tags and tokens of SequenceTagDataset *)

Lemma length_slice_to {A B} (n : option Z) (l : list A) (k : list B) :
  length l = length k → length (slice_to n l) = length (slice_to n k).
Proof.
  intros Hlen. destruct n as [n|]; simpl; [|done].
  destruct (decide (0 ≤ n)); rewrite !length_take, Hlen; done.
Qed.

Lemma length_slice_to_le {A} (n : Z) (l : list A) :
  0 ≤ n → (length (slice_to (Some n) l) ≤ Z.to_nat n)%nat.
Proof.
  intros Hn. simpl. rewrite decide_True by done. rewrite length_take. lia.
Qed.

(** X11: [SequenceTagDataset] cuts the tags where [preprocess_text] cuts the
    text: with the default one-token-per-character segmenter, a text and a
    label string with as many tags as the text has characters give equally
    many tokens and tag ids, at most [max_length] of each when [max_length]
    is a non-negative int. *)
Theorem sequence_tag_alignment {Vocab : Type} `{!VocabOps Vocab}
    (ds : SequenceTagDataset.t Vocab) (text label : str) (ids : list Z) :
  NLPDataset._segmenter (SupervisedNLPDataset.base ds) = list_segmenter →
  length text = length (split pipe label) →
  SequenceTagDataset.preprocess_label ds label = Ok ids →
  length (NLPDataset.encode_tokens (SupervisedNLPDataset.base ds) text)
    = length ids ∧
  ∀ n, NLPDataset._max_length (SupervisedNLPDataset.base ds) = Some n →
       0 ≤ n → (length ids ≤ Z.to_nat n)%nat.
Proof.
  intros Hseg Hlen Hids. unfold SequenceTagDataset.preprocess_label in Hids.
  apply rmap_Ok, Forall2_length in Hids.
  split.
  - unfold NLPDataset.encode_tokens. rewrite Hseg. unfold list_segmenter.
    rewrite length_map, <-Hids. by apply length_slice_to.
  - intros n Hn Hpos. rewrite <-Hids, Hn. by apply length_slice_to_le.
Qed.

Lemma sequence_tag_alignment_witness :
  ∃ ds ids,
    SequenceTagDataset.__init__ (Vocab := list str)
      (rows_of [s "abc"; s "de"] [s "B|I|O"; s "O|B"]) None None None (Some 2)
      = Ok ds ∧
    SequenceTagDataset.preprocess_label ds (s "B|I|O") = Ok ids ∧
    length (NLPDataset.encode_tokens (SupervisedNLPDataset.base ds) (s "abc"))
      = length ids.
Proof.
  eexists. exists [0; 1]. split; [vm_compute; reflexivity|].
  match goal with
  | |- context [SequenceTagDataset.preprocess_label ?d _] => set (ds := d)
  end.
  assert (Hids : SequenceTagDataset.preprocess_label ds (s "B|I|O")
                 = Ok [0; 1]) by (vm_compute; reflexivity).
  split; [exact Hids|].
  apply (sequence_tag_alignment ds (s "abc") (s "B|I|O") [0; 1]);
    [reflexivity|vm_compute; reflexivity|exact Hids].
Defined.

(** * Further properties of the training loop *)

(** ** What clipping leaves alone *)

Section clip_shape.
Context {F : Type} `{!FloatOps F}.

Lemma same_shape_refl (p : param F) : same_shape p p.
Proof. split; [done|]. by destruct (grad p). Qed.

Lemma same_shape_scale (c : F) (p : param F) :
  same_shape p (BaseModel.scale_grad c p).
Proof.
  split; [done|]. unfold BaseModel.scale_grad. simpl.
  destruct (grad p); simpl; [by rewrite length_map|done].
Qed.

End clip_shape.

(** X12: [_clip_gradient] never changes the shape of the model: the blocks
    and their parameters stay in place, the data of every parameter is
    untouched, no gradient is attached or removed and every gradient keeps
    its length. *)
Theorem clip_gradient_keeps_shape {F : Type} `{!FloatOps F} (clip : F)
    (tr : blocks F) :
  Forall2 (Forall2 same_shape) tr (BaseModel._clip_gradient clip tr).
Proof.
  unfold BaseModel._clip_gradient. destruct (fgtb _ _).
  - apply Forall2_fmap_r, Forall_Forall2_diag, Forall_forall. intros b _.
    apply Forall2_fmap_r, Forall_Forall2_diag, Forall_forall. intros p _.
    apply same_shape_scale.
  - apply Forall_Forall2_diag, Forall_forall. intros b _.
    apply Forall_Forall2_diag, Forall_forall. intros p _.
    apply same_shape_refl.
Qed.

(** X13: when no parameter has a gradient, [_clip_gradient] returns the
    model as it is, whatever [clip] and whatever the arithmetic makes of the
    norm of nothing. *)
Theorem clip_gradient_without_gradients {F : Type} `{!FloatOps F} (clip : F)
    (tr : blocks F) :
  (∀ p, p ∈ BaseModel._collect_params tr → grad p = None) →
  BaseModel._clip_gradient clip tr = tr.
Proof.
  intros Hnone. unfold BaseModel._clip_gradient.
  destruct (fgtb _ _); [|done].
  unfold BaseModel._collect_params in Hnone. generalize (fdiv clip
    (BaseModel.global_norm (BaseModel._collect_params tr))). intros c.
  induction tr as [|b tr IH]; [done|].
  rewrite map_cons. f_equal.
  - assert (Hb : Forall (λ p, grad p = None) b).
    { apply Forall_forall. intros p Hp. apply Hnone. simpl.
      apply elem_of_app. by left. }
    clear IH Hnone. induction Hb as [|p b Hp _ IHb]; [done|].
    rewrite map_cons. f_equal; [by apply scale_grad_absent|done].
  - apply IH. intros p Hp. apply Hnone. simpl. apply elem_of_app. by right.
Qed.

Lemma clip_gradient_without_gradients_witness :
  BaseModel._clip_gradient (inject_Z 0)
    [[{| data := [inject_Z 1]; grad := None |}]; []]
  = [[{| data := [inject_Z 1]; grad := None |}]; []].
Proof.
  apply clip_gradient_without_gradients. intros p Hp.
  apply list_elem_of_singleton in Hp as ->. reflexivity.
Defined.

(** ** One epoch *)

Section epoch_outcome.
Context {F batch : Type} `{!FloatOps F} `{!Engine F batch}.

Import BaseModel.

Ltac step_monad :=
  cbv [mbind mret Train_bind Train_ret get emit lift raise set_trainable
       set_trained set_learning_rate]; simpl.

Lemma one_batch_step_params (clip : F) (acc : F * Z) (b : batch)
    (st : state F) :
  ∃ total,
    one_batch_step clip acc b st =
      ({| _trainable := params_after clip (learning_rate st) (_trainable st) [b];
          _trained := _trained st;
          learning_rate := learning_rate st; trace := trace st |},
       Ok (total, acc.2 + 1)).
Proof.
  unfold one_batch_step, params_after. step_monad.
  destruct (forward_backward b (_trainable st)) as [loss tr1]. step_monad.
  by eexists.
Qed.

Lemma batch_loop_params (clip : F) (batches : list batch) (acc : F * Z)
    (st : state F) :
  ∃ total,
    fold_each batches (one_batch_step clip) acc st =
      ({| _trainable :=
            params_after clip (learning_rate st) (_trainable st) batches;
          _trained := _trained st;
          learning_rate := learning_rate st; trace := trace st |},
       Ok (total, acc.2 + Z.of_nat (length batches))).
Proof.
  revert acc st. induction batches as [|b bs IH]; intros [total n] st.
  - exists total. destruct st. simpl. by rewrite Z.add_0_r.
  - change (fold_each (b :: bs) (one_batch_step clip) (total, n) st)
      with (match one_batch_step clip (total, n) b st with
            | (st', Ok a) => fold_each bs (one_batch_step clip) a st'
            | (st', Err e) => (st', Err e)
            end).
    destruct (one_batch_step_params clip (total, n) b st) as (t1 & ->).
    edestruct IH as (total' & ->). simpl.
    exists total'. do 3 f_equal. lia.
Qed.

End epoch_outcome.

(** X14: [_one_epoch] raises [ZeroDivisionError] exactly when the loader
    yields no batch and returns the average otherwise; either way the
    learning rate and the trained flag are as before, and the parameters
    are those left by one optimizer step per batch, in loader order, each
    on gradients clipped after [forward_backward] and all at the learning
    rate the epoch started with. *)
Theorem one_epoch_outcome {F batch : Type} `{!FloatOps F} `{!Engine F batch}
    (data_iter : list batch) (epoch : Z) (clip : F) (st : BaseModel.state F) :
  ∃ r,
    BaseModel._one_epoch data_iter epoch clip st =
      ({| BaseModel._trainable :=
            params_after clip (BaseModel.learning_rate st)
              (BaseModel._trainable st) data_iter;
          BaseModel._trained := BaseModel._trained st;
          BaseModel.learning_rate := BaseModel.learning_rate st;
          BaseModel.trace :=
            BaseModel.trace st ++
              [BaseModel.EvEpoch epoch (BaseModel.learning_rate st)] |}, r) ∧
    (r = Err ZeroDivisionError ↔ data_iter = []) ∧
    (succeeded r = true ↔ data_iter ≠ []).
Proof.
  unfold BaseModel._one_epoch.
  cbv [mbind mret BaseModel.Train_bind BaseModel.Train_ret BaseModel.get
       BaseModel.emit BaseModel.raise]. simpl.
  edestruct (batch_loop_params clip data_iter (f_of_Z 0, 0)) as (total & ->).
  simpl. destruct (decide _) as [Hz|Hnz].
  - exists (Err ZeroDivisionError).
    assert (data_iter = []) as -> by (destruct data_iter; [done|simpl in Hz; lia]).
    split_and!; [done|done|]. simpl. split; [done|]. by intros [].
  - eexists (Ok _). split_and!; [done| |].
    + split; [done|]. intros ->. done.
    + split; [|done]. intros _ ->. done.
Qed.

(** ** Runs of [_fit] *)

Section fit_more.
Context {F batch D : Type} `{!FloatOps F} `{!Engine F batch}.
Context (hvd : option Z) (train_dataloader : Z → list batch)
  (valid_dataset : option D) (factor : F) (lr_update_epochs : Z) (clip : F)
  (checkpoint : option str) (save_frequency : Z).

Import BaseModel.

Let body := fit_epoch hvd train_dataloader valid_dataset factor
              lr_update_epochs clip checkpoint save_frequency.

(** [save_frequency] is read and is zero. *)
Let bad_cadence : bool :=
  is_coordinator hvd && negb (is_None checkpoint) &&
  bool_decide (save_frequency = 0).

Let epoch_ok (e : Z) : bool :=
  bool_decide (lr_update_epochs ≠ 0) &&
  bool_decide (train_dataloader e ≠ []) && negb bad_cadence.

(** An epoch with a non-zero [lr_update_epochs] and a batch to train on:
    it trains, and then either makes the calls of a completed epoch or
    stops at the modulo by a zero [save_frequency]. *)
Lemma fit_epoch_cases (epoch : Z) (st : state F) :
  lr_update_epochs ≠ 0 → train_dataloader epoch ≠ [] →
  ∃ st' r evs,
    body epoch st = (st', r) ∧
    trace st' = trace st ++ evs ∧
    _trained st' = true ∧
    learning_rate st' = rate_after factor lr_update_epochs (learning_rate st)
                          [epoch] ∧
    if bad_cadence
    then r = Err ZeroDivisionError ∧ calls evs = [CallEpoch epoch; CallTrainLog]
    else r = Ok () ∧
         calls evs = epoch_calls hvd valid_dataset checkpoint save_frequency
                       epoch.
Proof.
  intros Hu Hdl. unfold body, fit_epoch, bad_cadence, epoch_calls.
  rewrite (bind_run _ _ st st (epoch mod lr_update_epochs))
    by (unfold lift, py_mod; by rewrite decide_False).
  rewrite (bind_run _ _ _ _ () (before_epoch_run _ _ _)).
  fold (updates_lr lr_update_epochs epoch).
  match goal with
  | |- context [(_one_epoch ?b ?e ?c ≫= _) ?s] =>
      destruct (one_epoch_run b e c s) as (tr' & r1 & Hone & _ & Hcons)
  end.
  simpl in Hone. destruct (Hcons Hdl) as [avg ->].
  rewrite (bind_run _ _ _ _ _ Hone). simpl rate_after.
  cbv [mbind mret Train_bind Train_ret get emit lift raise set_trainable
       set_trained set_learning_rate]; simpl.
  destruct (is_coordinator hvd); simpl.
  2:{ eexists _, _, [_]. by split_and!. }
  destruct checkpoint as [prefix|]; simpl.
  2:{ destruct valid_dataset; simpl.
      - eexists _, _, [_; _; _]. split_and!; try done;
          simpl; by rewrite <-?(assoc_L app).
      - eexists _, _, [_; _]. split_and!; try done;
          simpl; by rewrite <-?(assoc_L app). }
  unfold py_mod. destruct (decide (save_frequency = 0)) as [Hs|Hs].
  { rewrite (bool_decide_true _ Hs). simpl.
    eexists _, _, [_; _]. split_and!; try done;
      simpl; by rewrite <-?(assoc_L app). }
  rewrite (bool_decide_false _ Hs). simpl.
  destruct (bool_decide (epoch mod save_frequency = 0));
    destruct valid_dataset; simpl.
  - eexists _, _, [_; _; _; _]. split_and!; try done;
      simpl; by rewrite <-?(assoc_L app).
  - eexists _, _, [_; _; _]. split_and!; try done;
      simpl; by rewrite <-?(assoc_L app).
  - eexists _, _, [_; _; _]. split_and!; try done;
      simpl; by rewrite <-?(assoc_L app).
  - eexists _, _, [_; _]. split_and!; try done;
      simpl; by rewrite <-?(assoc_L app).
Qed.

(** A loop all of whose epochs can complete. *)
Lemma fit_loop_ok (epochs : list Z) (st : state F) :
  forallb epoch_ok epochs = true →
  ∃ st' evs,
    for_each epochs body st = (st', Ok ()) ∧
    trace st' = trace st ++ evs ∧
    calls evs =
      epochs ≫= epoch_calls hvd valid_dataset checkpoint save_frequency ∧
    _trained st' = (if epochs is [] then _trained st else true) ∧
    learning_rate st' =
      rate_after factor lr_update_epochs (learning_rate st) epochs.
Proof.
  revert st. induction epochs as [|e es IH]; intros st Hall.
  { exists st, []. by rewrite app_nil_r. }
  simpl in Hall. apply andb_true_iff in Hall as [He Hes].
  unfold epoch_ok in He.
  apply andb_true_iff in He as [[Hu%bool_decide_eq_true
    Hdl%bool_decide_eq_true]%andb_true_iff Hbad%negb_true_iff].
  destruct (fit_epoch_cases e st Hu Hdl)
    as (st1 & r1 & evs1 & Hrun & Htr & Htrained & Hrate & Hcase).
  rewrite Hbad in Hcase. destruct Hcase as [-> Hcalls].
  change (for_each (e :: es) body st) with ((body e ≫= λ _, for_each es body) st).
  rewrite (bind_run _ _ _ _ _ Hrun).
  destruct (IH st1 Hes) as (st' & evs & -> & Htr' & Hcalls' & Htrained' & Hrate').
  exists st', (evs1 ++ evs). split_and!; [done| | | |].
  - by rewrite Htr', Htr, (assoc_L app).
  - unfold calls in *. rewrite map_app, Hcalls, Hcalls'. done.
  - rewrite Htrained'. by destruct es.
  - by rewrite Hrate', Hrate.
Qed.

(** Whether the loop returns is decided epoch by epoch. *)
Lemma fit_loop_succeeded (epochs : list Z) (st : state F) :
  succeeded (for_each epochs body st).2 = forallb epoch_ok epochs.
Proof.
  revert st. induction epochs as [|e es IH]; intros st; [done|].
  destruct (fit_epoch_run hvd train_dataloader valid_dataset factor
              lr_update_epochs clip checkpoint save_frequency e st)
    as (st1 & r1 & evs1 & Hrun & _ & _ & _ & _ & _ & Hok & _).
  change (for_each (e :: es) body st) with ((body e ≫= λ _, for_each es body) st).
  simpl forallb. unfold epoch_ok at 1, bad_cadence. rewrite <-Hok.
  destruct r1 as [[]|x].
  - rewrite (bind_run _ _ _ _ _ Hrun). simpl. apply IH.
  - by rewrite (bind_fail _ _ _ _ _ Hrun).
Qed.

Lemma forallb_epoch_ok (n_epochs : Z) :
  forallb epoch_ok (range 1 (n_epochs + 1)) = true ↔
  n_epochs ≤ 0 ∨
  (lr_update_epochs ≠ 0 ∧
   (∀ e, 1 ≤ e ≤ n_epochs → train_dataloader e ≠ []) ∧
   bad_cadence = false).
Proof.
  rewrite forallb_forall. split.
  - intros Hall. destruct (decide (n_epochs ≤ 0)) as [|Hn]; [by left|].
    right. assert (H1 : In 1 (range 1 (n_epochs + 1))).
    { apply list_elem_of_In, elem_of_range. lia. }
    pose proof (Hall 1 H1) as Hone. unfold epoch_ok in Hone.
    apply andb_true_iff in Hone as [[Hu%bool_decide_eq_true _]%andb_true_iff
      Hbad%negb_true_iff].
    split_and!; [done| |done].
    intros e He. assert (Hin : In e (range 1 (n_epochs + 1))).
    { apply list_elem_of_In, elem_of_range. lia. }
    pose proof (Hall e Hin) as Hok. unfold epoch_ok in Hok.
    by apply andb_true_iff in Hok as [[_ Hdl%bool_decide_eq_true]%andb_true_iff _].
  - intros [Hn|(Hu & Hdl & Hbad)] e He%list_elem_of_In.
    + rewrite range_nil in He by lia. by apply elem_of_nil in He.
    + apply elem_of_range in He. unfold epoch_ok.
      rewrite (bool_decide_true _ Hu), Hbad.
      rewrite bool_decide_true; [done|]. apply Hdl. lia.
Qed.

End fit_more.

Lemma rate_after_epochs {F : Type} `{!FloatOps F} (lr factor : F)
    (lr_update_epochs n_epochs : Z) :
  rate_after factor lr_update_epochs lr (range 1 (n_epochs + 1)) =
    decayed lr factor (lr_updates lr_update_epochs n_epochs).
Proof.
  destruct (decide (n_epochs ≤ 0)) as [Hn|Hn].
  { unfold lr_updates. by rewrite !range_nil by lia. }
  replace n_epochs with (Z.of_nat (Z.to_nat n_epochs)) by lia.
  induction (Z.to_nat n_epochs) as [|m IH].
  - unfold lr_updates. by rewrite !range_nil by lia.
  - replace (Z.of_nat (S m)) with (Z.of_nat m + 1) by lia.
    rewrite range_snoc by lia. unfold rate_after in *.
    rewrite foldl_app, IH. simpl. apply decayed_step. lia.
Qed.

(** X15: [_fit] returns exactly when a block is registered and either no
    epoch is asked for, or [lr_update_epochs] is non-zero, every pass of the
    loader yields a batch and [save_frequency] is not a zero that gets read
    (on the coordinating process, with a checkpoint prefix). It raises
    [AssertionError] exactly when no block is registered, leaving the model
    as it was, and [ZeroDivisionError] in every other failing case. The
    hooks of a subclass ([save], [_valid_log], the loss and the optimizer
    step) are calls that return, as in the definition of [_fit] above. *)
Theorem fit_outcome {F batch D : Type} `{!FloatOps F} `{!Engine F batch}
    (hvd : option Z) (train_dataloader : Z → list batch)
    (valid_dataset : option D) (lr : F) (n_epochs : Z) (lr_update_factor : F)
    (lr_update_epochs : Z) (clip : F) (checkpoint : option str)
    (save_frequency : Z) (st : BaseModel.state F) :
  let run := BaseModel._fit hvd train_dataloader valid_dataset lr n_epochs
               lr_update_factor lr_update_epochs clip checkpoint
               save_frequency st in
  (run.2 = Ok () ↔
     BaseModel._trainable st ≠ [] ∧
     (n_epochs ≤ 0 ∨
      (lr_update_epochs ≠ 0 ∧
       (∀ e, 1 ≤ e ≤ n_epochs → train_dataloader e ≠ []) ∧
       ¬ (BaseModel.is_coordinator hvd = true ∧ checkpoint ≠ None ∧
          save_frequency = 0)))) ∧
  (run.2 = Err AssertionError ↔ BaseModel._trainable st = []) ∧
  (BaseModel._trainable st = [] → run.1 = st) ∧
  (∀ x, run.2 = Err x → x = AssertionError ∨ x = ZeroDivisionError).
Proof.
  intros run. unfold run. rewrite fit_unfold.
  destruct (decide (length (BaseModel._trainable st) = 0%nat)) as [He|He].
  { assert (Hnil : BaseModel._trainable st = [])
      by (by destruct (BaseModel._trainable st)).
    simpl. split_and!; try done.
    - split; [done|]. by intros [? _].
    - intros x [= <-]. by left. }
  assert (Hne : BaseModel._trainable st ≠ []).
  { intros Hnil. by rewrite Hnil in He. }
  match goal with
  | |- context [BaseModel.for_each ?es ?b ?s] =>
      pose proof (fit_loop_succeeded hvd train_dataloader valid_dataset
                    lr_update_factor lr_update_epochs clip checkpoint
                    save_frequency es s) as Hsucc;
      destruct (fit_loop_run hvd train_dataloader valid_dataset
                  lr_update_factor lr_update_epochs clip checkpoint
                  save_frequency es s)
        as (st' & r & evs & _ & _ & Hrun & _ & _ & _ & _ & Herr & _)
  end.
  rewrite Hrun in Hsucc |- *. simpl in Hsucc |- *.
  assert (Hbad : BaseModel.is_coordinator hvd && negb (is_None checkpoint) &&
                 bool_decide (save_frequency = 0) = false ↔
                 ¬ (BaseModel.is_coordinator hvd = true ∧ checkpoint ≠ None ∧
                    save_frequency = 0)).
  { destruct (BaseModel.is_coordinator hvd), checkpoint as [prefix|]; simpl;
      try (split; [by intros _ (? & ? & ?)|done]).
    destruct (decide (save_frequency = 0)) as [Hs|Hs].
    - rewrite (bool_decide_true _ Hs). split; [done|]. intros Hn.
      by destruct Hn.
    - rewrite (bool_decide_false _ Hs). split; [|done].
      by intros _ (_ & _ & ?). }
  split_and!.
  - split.
    + intros ->. simpl in Hsucc. symmetry in Hsucc.
      apply forallb_epoch_ok in Hsucc as [Hn|(Hu & Hdl & Hb)]; [by auto|].
      split; [done|]. right. split_and!; [done..|]. by apply Hbad.
    + intros [_ Hcond].
      assert (Hall : succeeded r = true).
      { rewrite Hsucc. apply forallb_epoch_ok.
        destruct Hcond as [Hn|(Hu & Hdl & Hb)]; [by left|right].
        split_and!; [done..|]. by apply Hbad. }
      by destruct r as [[]|].
  - split; [|done]. intros ->. by pose proof (Herr _ eq_refl).
  - done.
  - intros x ->. right. by apply Herr.
Qed.

(** X16: a zero [lr_update_epochs] stops a run of one epoch or more, on a
    model with a registered block, before the first epoch is entered: the
    modulo raises [ZeroDivisionError] although epoch 1 is never an update,
    nothing is trained, logged or saved, and only the trainer's rate is
    set. *)
Theorem fit_zero_lr_update_epochs {F batch D : Type} `{!FloatOps F}
    `{!Engine F batch} (hvd : option Z) (train_dataloader : Z → list batch)
    (valid_dataset : option D) (lr : F) (n_epochs : Z) (lr_update_factor : F)
    (clip : F) (checkpoint : option str) (save_frequency : Z)
    (st : BaseModel.state F) :
  BaseModel._trainable st ≠ [] →
  1 ≤ n_epochs →
  BaseModel._fit hvd train_dataloader valid_dataset lr n_epochs
    lr_update_factor 0 clip checkpoint save_frequency st
  = ({| BaseModel._trainable := BaseModel._trainable st;
        BaseModel._trained := BaseModel._trained st;
        BaseModel.learning_rate := lr;
        BaseModel.trace := BaseModel.trace st |}, Err ZeroDivisionError).
Proof.
  intros Hne Hn. rewrite fit_unfold.
  rewrite decide_False by (by destruct (BaseModel._trainable st)).
  rewrite range_cons by lia.
  match goal with
  | |- context [BaseModel.for_each (1 :: ?es) ?b ?s] =>
      change (BaseModel.for_each (1 :: es) b s)
        with ((b 1 ≫= λ _, BaseModel.for_each es b) s);
      destruct (fit_epoch_run hvd train_dataloader valid_dataset
                  lr_update_factor 0 clip checkpoint save_frequency 1 s)
        as (st1 & r1 & evs1 & Hrun & _ & Hu0 & _ & _ & Herr & Hok & _)
  end.
  destruct (Hu0 eq_refl) as [-> _].
  rewrite (bool_decide_false (0 ≠ 0)) in Hok by (by intros ?).
  simpl in Hok. destruct r1 as [[]|x]; [done|].
  pose proof (Herr _ eq_refl) as ->.
  by rewrite (bind_fail _ _ _ _ _ Hrun).
Qed.

Lemma fit_zero_lr_update_epochs_witness :
  BaseModel._fit (D := unit) None one_batch_loader None (Qmake 1 100) 3
    (Qmake 1 2) 0 (inject_Z 5) None 1 fresh_model
  = ({| BaseModel._trainable := BaseModel._trainable fresh_model;
        BaseModel._trained := false;
        BaseModel.learning_rate := Qmake 1 100;
        BaseModel.trace := [] |}, Err ZeroDivisionError).
Proof.
  apply (fit_zero_lr_update_epochs (D := unit) None one_batch_loader None
           (Qmake 1 100) 3 (Qmake 1 2) (inject_Z 5) None 1 fresh_model).
  - discriminate.
  - lia.
Defined.

(** X17: [save_frequency] is read only on the coordinating process of a run
    with a checkpoint prefix. There a zero [save_frequency] lets the first
    epoch train and log its loss, then raises [ZeroDivisionError] before any
    checkpoint or validation log; without a prefix, or on another rank, the
    run is the same for every [save_frequency]. *)
Theorem fit_zero_save_frequency {F batch D : Type} `{!FloatOps F}
    `{!Engine F batch} (hvd : option Z) (train_dataloader : Z → list batch)
    (valid_dataset : option D) (lr : F) (n_epochs : Z) (lr_update_factor : F)
    (lr_update_epochs : Z) (clip : F) (st : BaseModel.state F) :
  (∀ prefix,
     BaseModel.is_coordinator hvd = true →
     BaseModel._trainable st ≠ [] → 1 ≤ n_epochs → lr_update_epochs ≠ 0 →
     train_dataloader 1 ≠ [] →
     ∃ st' evs,
       BaseModel._fit hvd train_dataloader valid_dataset lr n_epochs
         lr_update_factor lr_update_epochs clip (Some prefix) 0 st
         = (st', Err ZeroDivisionError) ∧
       BaseModel.trace st' = BaseModel.trace st ++ evs ∧
       calls evs = [CallEpoch 1; CallTrainLog] ∧
       BaseModel._trained st' = true) ∧
  (∀ save_frequency save_frequency',
     BaseModel._fit hvd train_dataloader valid_dataset lr n_epochs
       lr_update_factor lr_update_epochs clip None save_frequency st
     = BaseModel._fit hvd train_dataloader valid_dataset lr n_epochs
         lr_update_factor lr_update_epochs clip None save_frequency' st) ∧
  (∀ checkpoint save_frequency save_frequency',
     BaseModel.is_coordinator hvd = false →
     BaseModel._fit hvd train_dataloader valid_dataset lr n_epochs
       lr_update_factor lr_update_epochs clip checkpoint save_frequency st
     = BaseModel._fit hvd train_dataloader valid_dataset lr n_epochs
         lr_update_factor lr_update_epochs clip checkpoint save_frequency'
         st).
Proof.
  split_and!.
  - intros prefix Hco Hne Hn Hu Hdl. rewrite fit_unfold.
    rewrite decide_False by (by destruct (BaseModel._trainable st)).
    rewrite range_cons by lia.
    match goal with
    | |- context [BaseModel.for_each (1 :: ?es) ?b ?s] =>
        change (BaseModel.for_each (1 :: es) b s)
          with ((b 1 ≫= λ _, BaseModel.for_each es b) s);
        destruct (fit_epoch_cases hvd train_dataloader valid_dataset
                    lr_update_factor lr_update_epochs clip (Some prefix) 0 1 s
                    Hu Hdl)
          as (st1 & r1 & evs1 & Hrun & Htr & Htrained & _ & Hcase)
    end.
    rewrite Hco in Hcase. simpl in Hcase. destruct Hcase as [-> Hcalls].
    rewrite (bind_fail _ _ _ _ _ Hrun). by exists st1, evs1.
  - intros save_frequency save_frequency'. reflexivity.
  - intros checkpoint save_frequency save_frequency' Hco.
    unfold BaseModel._fit, BaseModel.fit_epoch.
    destruct (BaseModel.is_coordinator hvd); [done|]. reflexivity.
Qed.

Lemma fit_zero_save_frequency_witness :
  ∃ st' evs,
    BaseModel._fit (D := unit) None one_batch_loader (Some ()) (Qmake 1 100) 3
      (Qmake 1 2) 2 (inject_Z 5) (Some (s "ckpt")) 0 fresh_model
      = (st', Err ZeroDivisionError) ∧
    BaseModel.trace st' = BaseModel.trace fresh_model ++ evs ∧
    calls evs = [CallEpoch 1; CallTrainLog].
Proof.
  destruct (fit_zero_save_frequency (D := unit) None one_batch_loader
              (Some ()) (Qmake 1 100) 3 (Qmake 1 2) 2 (inject_Z 5)
              fresh_model) as (Hzero & _ & _).
  destruct (Hzero (s "ckpt")) as (st' & evs & Hrun & Htr & Hcalls & _);
    [reflexivity|discriminate|lia|lia|discriminate|].
  by exists st', evs.
Defined.

(** X18: a run of [_fit] that returns has made, for the epochs
    [1..n_epochs] in turn, the calls of one epoch in this order: the epoch,
    then on the coordinating process the training log, the checkpoint when
    [epoch % save_frequency == 0] and a prefix is given, and the validation
    log when a validation set is given; on another rank the epochs only.
    It leaves the trainer at the rate of the last epoch, and the model
    marked trained as soon as there was an epoch. *)
Theorem fit_calls_in_order {F batch D : Type} `{!FloatOps F}
    `{!Engine F batch} (hvd : option Z) (train_dataloader : Z → list batch)
    (valid_dataset : option D) (lr : F) (n_epochs : Z) (lr_update_factor : F)
    (lr_update_epochs : Z) (clip : F) (checkpoint : option str)
    (save_frequency : Z) (st st' : BaseModel.state F) :
  BaseModel._fit hvd train_dataloader valid_dataset lr n_epochs
    lr_update_factor lr_update_epochs clip checkpoint save_frequency st
    = (st', Ok ()) →
  ∃ evs,
    BaseModel.trace st' = BaseModel.trace st ++ evs ∧
    calls evs =
      range 1 (n_epochs + 1)
        ≫= epoch_calls hvd valid_dataset checkpoint save_frequency ∧
    BaseModel.learning_rate st' =
      decayed lr lr_update_factor (lr_updates lr_update_epochs n_epochs) ∧
    BaseModel._trained st' =
      (if decide (n_epochs ≤ 0) then BaseModel._trained st else true).
Proof.
  rewrite fit_unfold.
  destruct (decide (length (BaseModel._trainable st) = 0%nat)); [done|].
  intros Hrun.
  match type of Hrun with
  | BaseModel.for_each ?es ?b ?s = _ =>
      pose proof (fit_loop_succeeded hvd train_dataloader valid_dataset
                    lr_update_factor lr_update_epochs clip checkpoint
                    save_frequency es s) as Hsucc;
      rewrite Hrun in Hsucc; simpl in Hsucc; symmetry in Hsucc;
      destruct (fit_loop_ok hvd train_dataloader valid_dataset
                  lr_update_factor lr_update_epochs clip checkpoint
                  save_frequency es s Hsucc)
        as (st2 & evs & Hrun' & Htr & Hcalls & Htrained & Hrate)
  end.
  rewrite Hrun in Hrun'. injection Hrun' as <-.
  exists evs. simpl in Htr, Htrained, Hrate. split_and!; [done|done| |].
  - by rewrite Hrate, rate_after_epochs.
  - rewrite Htrained. destruct (decide (n_epochs ≤ 0)) as [Hn|Hn].
    + by rewrite range_nil by lia.
    + by rewrite range_cons by lia.
Qed.

Lemma fit_calls_in_order_witness :
  ∃ st' evs,
    BaseModel._fit (D := unit) None one_batch_loader (Some ()) (Qmake 1 100) 2
      (Qmake 1 2) 2 (inject_Z 5) (Some (s "ckpt")) 2 fresh_model
      = (st', Ok ()) ∧
    BaseModel.trace st' = evs ∧
    calls evs = [CallEpoch 1; CallTrainLog; CallValidLog;
                 CallEpoch 2; CallTrainLog; CallSave (s "ckpt-0002");
                 CallValidLog] ∧
    BaseModel.learning_rate st' = Qmake 1 200.
Proof.
  let r := eval vm_compute in
             (BaseModel._fit (D := unit) None one_batch_loader (Some ())
                (Qmake 1 100) 2 (Qmake 1 2) 2 (inject_Z 5) (Some (s "ckpt")) 2
                fresh_model) in
  match r with (?st, _) => pose (st' := st) end.
  assert (Hrun : BaseModel._fit (D := unit) None one_batch_loader (Some ())
                   (Qmake 1 100) 2 (Qmake 1 2) 2 (inject_Z 5)
                   (Some (s "ckpt")) 2 fresh_model = (st', Ok ()))
    by (vm_compute; reflexivity).
  destruct (fit_calls_in_order _ _ _ _ _ _ _ _ _ _ _ _ Hrun)
    as (evs & Htr & Hcalls & Hrate & _).
  exists st', evs. split; [exact Hrun|]. split; [exact Htr|].
  split.
  - rewrite Hcalls. vm_compute. reflexivity.
  - rewrite Hrate. vm_compute. reflexivity.
Defined.

(** ** Checkpoint names *)

Lemma str_uint_uint_str (u : Decimal.uint) : str_uint (uint_str u) = Some u.
Proof. induction u; simpl; rewrite ?IHu; done. Qed.

Lemma str_uint_zero_pad (k : nat) (d : str) (u : Decimal.uint) :
  str_uint d = Some u →
  str_uint (replicate k zero_digit ++ d) = Some (Nat.iter k D0 u).
Proof. intros Hd. induction k as [|k IH]; simpl; [done|]. by rewrite IH. Qed.

Lemma of_uint_zeros (k : nat) (u : Decimal.uint) :
  N.of_uint (Nat.iter k D0 u) = N.of_uint u.
Proof. induction k as [|k IH]; [done|]. simpl. exact IH. Qed.

Lemma parse_format_04 (e : Z) : 0 ≤ e → parse_decimal (format_04 e) = Some e.
Proof.
  intros He. unfold parse_decimal, format_04, zero_pad, digits.
  rewrite decide_False by lia.
  rewrite (str_uint_zero_pad _ _ _ (str_uint_uint_str _)). simpl.
  rewrite of_uint_zeros, DecimalN.Unsigned.of_to. f_equal. lia.
Qed.

(** X19: the epoch number can be read back from the zero-padded suffix of a
    checkpoint name, so that under one prefix no two epochs are saved to the
    same path. *)
Theorem checkpoint_paths_distinct (prefix : str) (e1 e2 : Z) :
  0 ≤ e1 → 0 ≤ e2 →
  parse_decimal (format_04 e1) = Some e1 ∧
  (checkpoint_path prefix e1 = checkpoint_path prefix e2 → e1 = e2).
Proof.
  intros H1 H2. split; [by apply parse_format_04|].
  unfold checkpoint_path. intros Heq%app_inv_head. injection Heq as Heq.
  pose proof (parse_format_04 e1 H1) as Hp1.
  rewrite Heq, parse_format_04 in Hp1 by done. by injection Hp1.
Qed.

Lemma checkpoint_paths_distinct_witness :
  parse_decimal (s "0012") = Some 12 ∧
  (checkpoint_path (s "ckpt") 12 = checkpoint_path (s "ckpt") 12345 →
   12 = 12345).
Proof.
  destruct (checkpoint_paths_distinct (s "ckpt") 12 12345) as [Hp Hinj];
    [lia|lia|].
  split; [exact Hp|exact Hinj].
Defined.

(** * Further properties of the derived datasets *)

(** ** Construction of ClassifyDataset *)

Lemma elem_of_dict_keys_of_list {K V : Type} `{EqDecision K}
    (l : list (K * V)) (k : K) :
  k ∈ dict_keys (dict_of_list l) ↔ k ∈ l.*1.
Proof.
  unfold dict_of_list.
  enough (∀ acc : dict K V,
            k ∈ dict_keys (foldl (λ d kv, dict_set kv.1 kv.2 d) acc l) ↔
            k ∈ dict_keys acc ∨ k ∈ l.*1) as Hgen.
  { rewrite Hgen. unfold dict_keys. simpl. rewrite elem_of_nil. tauto. }
  induction l as [|[k' v'] l IH]; intros acc; simpl.
  - rewrite elem_of_nil. tauto.
  - rewrite IH, elem_of_dict_keys_set, elem_of_cons. simpl. tauto.
Qed.

Lemma invert_lookup_is_Some (d : dict str Z) (i : Z) :
  is_Some (dict_get i (SupervisedNLPDataset.invert d)) ↔ i ∈ d.*2.
Proof.
  rewrite <-not_eq_None_Some, dict_get_None.
  unfold SupervisedNLPDataset.invert.
  rewrite elem_of_dict_keys_of_list, <-list_fmap_compose.
  split; [|tauto]. intros Hnn. by destruct (decide (i ∈ d.*2)).
Qed.

(** X20: on top of a constructed [SupervisedNLPDataset] with [K] indexed
    labels, [ClassifyDataset] is constructed exactly when every id of
    [0..K-1] is the id of a label; otherwise the class list cannot be built
    and the construction raises [KeyError] for an id of that range that no
    label has. A label index built from the corpus always qualifies. *)
Theorem classify_construction {Vocab : Type} `{!VocabOps Vocab}
    (dataset : list str) (vocab : option Vocab)
    (label2idx : option (dict str Z)) (segmenter : option (str → list str))
    (max_length : option Z) (sup : SupervisedNLPDataset.t Vocab) :
  (∀ d, label2idx = Some d → NoDup (dict_keys d)) →
  SupervisedNLPDataset.__init__ dataset vocab label2idx segmenter max_length
    = Ok sup →
  let index := SupervisedNLPDataset._label2idx sup in
  let construction :=
    ClassifyDataset.__init__ dataset vocab label2idx segmenter max_length in
  (succeeded construction = true ↔
     ∀ i, 0 ≤ i < Z.of_nat (length index) → i ∈ index.*2) ∧
  (∀ e, construction = Err e →
        ∃ i, e = KeyErrorInt i ∧ 0 ≤ i < Z.of_nat (length index) ∧
             i ∉ index.*2) ∧
  (label2idx = None → succeeded construction = true).
Proof.
  intros Hinj Hsup index construction.
  pose proof (init_label2idx_NoDup _ _ _ _ _ _ Hinj Hsup) as Hnd.
  pose proof Hsup as Hsup'.
  apply init_Ok in Hsup' as (_ & _ & _ & _ & _ & _ & _ & _ & Hi2l).
  assert (Hcons : construction =
            (cls ← rmap (ClassifyDataset.label_of_id
                           (SupervisedNLPDataset.invert index))
                        (range 0 (Z.of_nat (length index)));
             Ok {| ClassifyDataset.super := sup;
                   ClassifyDataset._binarizer :=
                     {| MultiLabelBinarizer.classes := cls |} |})).
  { unfold construction, ClassifyDataset.__init__. rewrite Hsup. simpl.
    by rewrite Hi2l. }
  assert (Hiff : succeeded construction = true ↔
            ∀ i, 0 ≤ i < Z.of_nat (length index) → i ∈ index.*2).
  { rewrite Hcons. split.
    - destruct (rmap _ _) as [cls|e] eqn:Hcls; [|done]. intros _ i Hi.
      destruct (classes_decode _ _ Hnd Hcls) as (_ & Hdom & _).
      by apply invert_lookup_is_Some, Hdom.
    - intros Hall.
      destruct (rmap_total (ClassifyDataset.label_of_id
                  (SupervisedNLPDataset.invert index))
                  (range 0 (Z.of_nat (length index)))) as [cls ->]; [|done].
      intros i Hi%elem_of_range.
      destruct (proj2 (invert_lookup_is_Some index i)) as [l Hl].
      { apply Hall. lia. }
      exists l. unfold ClassifyDataset.label_of_id. by rewrite Hl. }
  split_and!; [done| |].
  - rewrite Hcons. intros e He.
    destruct (rmap _ _) as [cls|e'] eqn:Hcls; [done|].
    injection He as ->.
    destruct (rmap_Err (ClassifyDataset.label_of_id
                (SupervisedNLPDataset.invert index))
                (range 0 (Z.of_nat (length index))))
      as (i & e' & Hi & Hfail & Hr).
    { destruct (decide (Forall (λ i, is_Some (dict_get i
                  (SupervisedNLPDataset.invert index)))
                  (range 0 (Z.of_nat (length index))))) as [Hall|Hex].
      - rewrite Forall_forall in Hall.
        destruct (rmap_total (ClassifyDataset.label_of_id
                    (SupervisedNLPDataset.invert index))
                    (range 0 (Z.of_nat (length index)))) as [cls Hok];
          [|congruence].
        intros i [l Hl]%Hall. exists l.
        unfold ClassifyDataset.label_of_id. by rewrite Hl.
      - apply not_Forall_Exists, Exists_exists in Hex as (i & Hi & Hnone);
          [|apply _].
        exists i. split; [done|]. exists (KeyErrorInt i).
        unfold ClassifyDataset.label_of_id.
        destruct (dict_get i _) eqn:Hg; [|done].
        destruct Hnone. by rewrite Hg. }
    rewrite Hcls in Hr. injection Hr as ->.
    unfold ClassifyDataset.label_of_id in Hfail.
    destruct (dict_get i _) eqn:Hg; [done|]. injection Hfail as <-.
    exists i. split; [done|]. split; [apply elem_of_range in Hi; lia|].
    intros Hin%invert_lookup_is_Some. rewrite Hg in Hin. by destruct Hin.
  - intros ->. apply Hiff. intros i Hi.
    destruct (built_index_lookup _ _ _ _ _ Hsup) as (_ & _ & _ & Hsome).
    apply invert_lookup_is_Some. unfold index. rewrite <-Hi2l.
    by apply Hsome.
Qed.

Lemma classify_construction_witness :
  ClassifyDataset.__init__ (rows_of [s "ab"] [s "x"])
    (None : option (list str)) (Some [(s "x", 0); (s "y", 2)]) None (Some 100)
  = Err (KeyErrorInt 1).
Proof.
  destruct (SupervisedNLPDataset.__init__ (rows_of [s "ab"] [s "x"])
              (None : option (list str)) (Some [(s "x", 0); (s "y", 2)]) None
              (Some 100)) as [sup|e] eqn:Hsup; [|by vm_compute in Hsup].
  assert (Hinj : ∀ d : dict str Z,
            Some [(s "x", 0); (s "y", 2)] = Some d → NoDup (dict_keys d)).
  { intros d Hd. injection Hd as <-. by apply (bool_decide_unpack _). }
  destruct (classify_construction _ _ _ _ _ sup Hinj Hsup) as (_ & Herr & _).
  destruct (ClassifyDataset.__init__ _ _ _ _ _) as [cds|e] eqn:Hc;
    [by vm_compute in Hc|].
  destruct (Herr e eq_refl) as (i & -> & _). vm_compute in Hc.
  symmetry. exact Hc.
Defined.

(** ** Text lengths of SupervisedNLPDataset *)

Section supervised_lengths.
Context {Vocab : Type} `{!VocabOps Vocab}.
Implicit Types (ds : SupervisedNLPDataset.t Vocab).

Lemma rmap_label_id_Err ds (labels : list str) (e : exn) :
  rmap (SupervisedNLPDataset.label_id ds) labels = Err e →
  ∃ k, e = KeyError k ∧ k ∈ labels ∧
       dict_get k (SupervisedNLPDataset._label2idx ds) = None.
Proof.
  induction labels as [|l labels IH]; [done|].
  change (rmap (SupervisedNLPDataset.label_id ds) (l :: labels))
    with (y ← SupervisedNLPDataset.label_id ds l;
          ys ← rmap (SupervisedNLPDataset.label_id ds) labels; Ok (y :: ys)).
  destruct (SupervisedNLPDataset.label_id ds l) as [y|e'] eqn:Hl; simpl.
  - destruct (rmap _ labels) as [ys|e'] eqn:Hr; [done|]. simpl.
    intros [= ->]. destruct (IH eq_refl) as (k & -> & Hk & Hnone).
    exists k. split_and!; [done|by right|done].
  - intros [= ->]. apply label_id_Err in Hl as [Hnone ->].
    exists l. split_and!; [done|left|done].
Qed.

(** An item of a dataset whose rows all have two fields. *)
Lemma supervised_item ds (i : nat) (row : str) :
  (2 ≤ length (split tab row))%nat →
  NLPDataset._dataset (SupervisedNLPDataset.base ds) !! i = Some row →
  SupervisedNLPDataset.__getitem__
    (SupervisedNLPDataset.preprocess_label ds) ds (Z.of_nat i) =
  (ids ← SupervisedNLPDataset.preprocess_label ds (row_label row);
   Ok (NLPDataset.preprocess_text (SupervisedNLPDataset.base ds)
         (row_text row), ids)).
Proof.
  intros Hfields Hrow. unfold SupervisedNLPDataset.__getitem__.
  rewrite (list_getitem_nat _ _ _ Hrow). simpl.
  pose proof (unpack2_total _ Hfields) as Hu.
  apply unpack2_Ok in Hu as [rest Hsplit].
  unfold NLPDataset._split_row. by rewrite Hsplit.
Qed.

End supervised_lengths.

(** X21: the [text_lengths] of a [SupervisedNLPDataset] whose vocabulary
    was built are the token counts recorded at construction. With an
    injected vocabulary they are computed by encoding every item, label
    included: they are the lengths of the encoded texts when every label
    component of every row is in the label index, and the property raises
    [KeyError] for an unknown component as soon as one row has one. *)
Theorem supervised_text_lengths {Vocab : Type} `{!VocabOps Vocab}
    (dataset : list str) (vocab : option Vocab)
    (label2idx : option (dict str Z)) (segmenter : option (str → list str))
    (max_length : option Z) (ds : SupervisedNLPDataset.t Vocab) :
  SupervisedNLPDataset.__init__ dataset vocab label2idx segmenter max_length
    = Ok ds →
  let index := SupervisedNLPDataset._label2idx ds in
  let lengths := SupervisedNLPDataset.text_lengths
                   (SupervisedNLPDataset.preprocess_label ds) ds in
  (vocab = None →
     lengths =
       Ok ((λ row, length (default list_segmenter segmenter (row_text row)))
             <$> dataset)) ∧
  (vocab ≠ None →
     (∀ row l, row ∈ dataset → l ∈ split pipe (row_label row) →
               is_Some (dict_get l index)) →
     lengths =
       Ok ((λ row, length (NLPDataset.preprocess_text
                             (SupervisedNLPDataset.base ds) (row_text row)))
             <$> dataset)) ∧
  (vocab ≠ None →
     (∃ row l, row ∈ dataset ∧ l ∈ split pipe (row_label row) ∧
               dict_get l index = None) →
     ∃ k, lengths = Err (KeyError k) ∧ dict_get k index = None).
Proof.
  intros Hinit index lengths.
  apply init_Ok in Hinit as (st & Hscan & Hdata & _ & _ & Hlen & _).
  apply scan_Ok in Hscan as (Hfields & _ & _ & Hlens). simpl in Hlens.
  rewrite Forall_forall in Hfields.
  unfold lengths, SupervisedNLPDataset.text_lengths.
  rewrite Hlen, Hlens, Hdata. split_and!.
  - intros ->. simpl. rewrite decide_False; [done|].
    rewrite length_fmap. by intros ?.
  - intros Hv Hknown. destruct vocab as [v|]; [|done]. simpl.
    destruct (decide _) as [Hne|He].
    2:{ destruct dataset; [done|]. simpl in He. by destruct He. }
    apply rmap_Ok. rewrite range_0.
    apply Forall2_fmap_l, Forall2_fmap_r.
    apply Forall2_same_length_lookup_2; [by rewrite length_seq|].
    intros i n row [-> Hi]%lookup_seq Hrow. simpl.
    assert (Hin : row ∈ dataset) by (apply list_elem_of_lookup; eauto).
    rewrite (supervised_item ds i row); [|by apply Hfields|by rewrite Hdata].
    destruct (lookup_all_known ds (split pipe (row_label row)))
      as (ids & Hids & _); [by intros l Hl; eapply Hknown|].
    unfold SupervisedNLPDataset.preprocess_label. by rewrite Hids.
  - intros Hv (row & l & Hin & Hl & Hnone). destruct vocab as [v|]; [|done].
    simpl. apply list_elem_of_lookup in Hin as [j Hj].
    destruct (decide _) as [Hne|He].
    2:{ destruct dataset; [done|]. simpl in He. by destruct He. }
    match goal with
    | |- ∃ k, rmap ?f ?l = _ ∧ _ =>
        destruct (rmap_Err f l) as (x & e & Hx & Hfx & ->)
    end.
    { exists (Z.of_nat j). split.
      - apply elem_of_range. apply lookup_lt_Some in Hj. lia.
      - assert (Hrow : row ∈ dataset) by (apply list_elem_of_lookup; eauto).
        rewrite (supervised_item ds j row);
          [|by apply Hfields|by rewrite Hdata].
        destruct (lookup_all_unknown ds (split pipe (row_label row)))
          as (k & _ & _ & Hk); [by exists l|].
        unfold SupervisedNLPDataset.preprocess_label. rewrite Hk.
        by eexists. }
    apply elem_of_range in Hx.
    destruct (lookup_lt_is_Some_2 dataset (Z.to_nat x)) as [row' Hrow'];
      [lia|].
    assert (Hin' : row' ∈ dataset) by (apply list_elem_of_lookup; eauto).
    rewrite <-(Z2Nat.id x) in Hfx by lia.
    rewrite (supervised_item ds _ row') in Hfx;
      [|by apply Hfields|by rewrite Hdata].
    unfold SupervisedNLPDataset.preprocess_label in Hfx.
    destruct (rmap _ (split pipe (row_label row'))) as [ids|e'] eqn:Hr;
      [done|].
    simpl in Hfx. injection Hfx as <-.
    apply rmap_label_id_Err in Hr as (k & -> & _ & Hk). by exists k.
Qed.

Lemma supervised_text_lengths_witness :
  ∃ train valid,
    SupervisedNLPDataset.__init__ (rows_of [s "abc"] [s "x"])
      (None : option (list str)) None None (Some 2) = Ok train ∧
    SupervisedNLPDataset.__init__ (rows_of [s "abc"; s "b"] [s "x"; s "q"])
      (Some (NLPDataset._vocab (SupervisedNLPDataset.base train)))
      (Some (SupervisedNLPDataset._label2idx train)) None (Some 2) = Ok valid ∧
    SupervisedNLPDataset.text_lengths
      (SupervisedNLPDataset.preprocess_label train) train = Ok [3%nat] ∧
    ∃ k, SupervisedNLPDataset.text_lengths
           (SupervisedNLPDataset.preprocess_label valid) valid
         = Err (KeyError k).
Proof.
  let r := eval vm_compute in
             (SupervisedNLPDataset.__init__ (rows_of [s "abc"] [s "x"])
                (None : option (list str)) None None (Some 2)) in
  match r with Ok ?a => pose (train := a) end.
  let r := eval vm_compute in
             (SupervisedNLPDataset.__init__
                (rows_of [s "abc"; s "b"] [s "x"; s "q"])
                (Some (NLPDataset._vocab (SupervisedNLPDataset.base train)))
                (Some (SupervisedNLPDataset._label2idx train)) None (Some 2)) in
  match r with Ok ?a => pose (valid := a) end.
  assert (Ht : SupervisedNLPDataset.__init__ (rows_of [s "abc"] [s "x"])
                 (None : option (list str)) None None (Some 2) = Ok train)
    by (vm_compute; reflexivity).
  assert (Hv : SupervisedNLPDataset.__init__
                 (rows_of [s "abc"; s "b"] [s "x"; s "q"])
                 (Some (NLPDataset._vocab (SupervisedNLPDataset.base train)))
                 (Some (SupervisedNLPDataset._label2idx train)) None (Some 2)
               = Ok valid)
    by (vm_compute; reflexivity).
  exists train, valid. split; [exact Ht|]. split; [exact Hv|].
  destruct (supervised_text_lengths _ _ _ _ _ _ Ht) as (Hbuilt & _ & _).
  destruct (supervised_text_lengths _ _ _ _ _ _ Hv) as (_ & _ & Hfail).
  split.
  - etrans; [by apply Hbuilt|]. vm_compute. reflexivity.
  - destruct Hfail as (k & Hk & _); [done| |by exists k].
    exists (s "b" ++ tab :: s "q"), (s "q").
    split_and!; [by apply (bool_decide_unpack _)|
                 by apply (bool_decide_unpack _)|vm_compute; reflexivity].
Defined.
